(** * Blasius boundary-layer solver: RK4 integrator and secant shooting loop

    A shallow embedding of the two functions of the notebook,
    [runge_kutta_4th_order] and [secant_method], and the properties the
    specification states about them.

    The Python code computes with floating-point numbers; the specification
    speaks of real numbers.  The embedding is therefore written once, over an
    interface [Arith] of the arithmetic the code uses, and instantiated twice:
    - [binary64]: IEEE 754 double precision, what Python's [float] and numpy's
      [float64] compute (Rocq's primitive floats);
    - [exactQ]: the rational numbers, the exact arithmetic of the
      specification.
    Structural properties are proved for every arithmetic; algebraic ones for
    exact arithmetic, and for binary64 where they hold there; concrete runs
    are evaluated in [binary64].

    What the embedding leaves out:
    - the integer [0] the lists start with is the number 0 of the arithmetic
      (Python keeps an [int] there until the first float is appended; the
      values are the same);
    - numpy's warnings on a division by zero or an invalid operation: the
      division itself goes on with an infinity or a NaN, as modelled;
    - memory: a grid of any length that fits an index is built;
    - the class of the exception [numpy.arange] raises when it cannot size
      the grid; the notebook's own [RuntimeError] is modelled with its
      message. *)

From Stdlib Require Import ZArith String Bool Lia Arith List.
From Stdlib Require Import QArith Qcanon Qround Qcabs Lqa.
From Stdlib Require Import Floats.
From Stdlib Require Import Ring Field.
Import ListNotations.
Close Scope Qc_scope.
Close Scope Q_scope.

(** Decimal literals stand for the nearest double, as in Python. *)
Set Warnings "-inexact-float".

(** ** The arithmetic the code uses *)

Declare Scope arith_scope.
Delimit Scope arith_scope with A.

Class Arith (F : Type) : Type := {
  (** an integer literal or an integer loop index, read as a number *)
  of_int : Z -> F;
  (** the literal [0.5] *)
  half : F;
  fadd : F -> F -> F;
  fsub : F -> F -> F;
  fmul : F -> F -> F;
  fdiv : F -> F -> F;
  fneg : F -> F;
  (** Python's [abs], [<] and [==] *)
  fabs : F -> F;
  flt : F -> F -> bool;
  feq : F -> F -> bool;
  (** the ceiling of a number as an array length; [None] when there is none
      (a NaN, an infinity, a value beyond the index range) *)
  fceil : F -> option Z
}.

Notation "x + y" := (fadd x y) : arith_scope.
Notation "x - y" := (fsub x y) : arith_scope.
Notation "x * y" := (fmul x y) : arith_scope.
Notation "x / y" := (fdiv x y) : arith_scope.
Notation "- x" := (fneg x) : arith_scope.
Notation "x <? y" := (flt x y) : arith_scope.
Notation "x =? y" := (feq x y) : arith_scope.

Definition zero {F} `{Arith F} : F := of_int 0.
Definition one {F} `{Arith F} : F := of_int 1.
Definition two {F} `{Arith F} : F := of_int 2.
Definition six {F} `{Arith F} : F := of_int 6.

(** *** IEEE 754 binary64 *)

Module B64.

(** An integer of magnitude below [2^63], rounded to the nearest double. *)
Definition of_Z (z : Z) : float :=
  match z with
  | Z0 => PrimFloat.zero
  | Zpos _ => PrimFloat.of_uint63 (Uint63.of_Z z)
  | Zneg p => PrimFloat.opp (PrimFloat.of_uint63 (Uint63.of_Z (Zpos p)))
  end.

(** The ceiling of a finite double, as an integer. *)
Definition ceil_SF (x : spec_float) : option Z :=
  match x with
  | S754_zero _ => Some 0%Z
  | S754_finite s m e =>
      let v := if (0 <=? e)%Z
               then (Zpos m * 2 ^ e)%Z
               else if s then (Zpos m / 2 ^ (- e))%Z
                    else (- ((- Zpos m) / 2 ^ (- e)))%Z in
      Some (if s then (- v)%Z else v)
  | S754_infinity _ | S754_nan => None
  end.

(** numpy keeps a ceiling that lies between the doubles nearest the extreme
    signed 64-bit indices, [- 2^63] and [2^63], and casts it to such an
    index; the cast wraps [2^63] to [- 2^63]. *)
Definition ceil (x : float) : option Z :=
  match ceil_SF (Prim2SF x) with
  | Some z =>
      if ((- 2 ^ 63 <=? z) && (z <=? 2 ^ 63))%Z
      then Some (if (z =? 2 ^ 63)%Z then (- 2 ^ 63)%Z else z)
      else None
  | None => None
  end.

End B64.

#[export] Instance binary64 : Arith float := {
  of_int := B64.of_Z;
  half := 0.5%float;
  fadd := PrimFloat.add;
  fsub := PrimFloat.sub;
  fmul := PrimFloat.mul;
  fdiv := PrimFloat.div;
  fneg := PrimFloat.opp;
  fabs := PrimFloat.abs;
  flt := PrimFloat.ltb;
  feq := PrimFloat.eqb;
  fceil := B64.ceil
}.

(** *** Exact rational arithmetic *)

#[export] Instance exactQ : Arith Qc := {
  of_int := fun z => Q2Qc (inject_Z z);
  half := Q2Qc (1 # 2);
  fadd := Qcplus;
  fsub := Qcminus;
  fmul := Qcmult;
  fdiv := Qcdiv;
  fneg := Qcopp;
  fabs := Qcabs;
  flt := fun x y => match Qccompare x y with Lt => true | _ => false end;
  feq := Qc_eq_bool;
  fceil := fun x => Some (Qceiling x)
}.

(** ** Python results *)

(** The exceptions a call can end in.  [ArangeError] stands for whatever
    [numpy.arange] raises when it cannot size the grid: a zero step, or a
    quotient [(stop - start) / step] that has no ceiling.  [RuntimeError] is
    the only exception the notebook raises itself. *)
Inductive exn : Type :=
| ArangeError
| RuntimeError (msg : string).

Inductive result (A : Type) : Type :=
| Return (a : A)
| Raise (e : exn).
Arguments Return {A} a.
Arguments Raise {A} e.

Definition bind {A B} (r : result A) (k : A -> result B) : result B :=
  match r with
  | Return a => k a
  | Raise e => Raise e
  end.

Notation "x <- r ;; k" := (bind r (fun x => k))
  (at level 61, r at next level, right associativity).
Notation "' p <- r ;; k" := (bind r (fun x => let p := x in k))
  (at level 61, p pattern, r at next level, right associativity).

Section Solver.

Context {F : Type} {A : Arith F}.
Local Open Scope arith_scope.

(** ** numpy.arange

    [numpy.arange(start, stop, step)] for floating-point arguments:
    [ceil((stop - start) / step)] values [start + i * step], none when that
    count is not positive. *)
Definition arange (start stop step : F) : result (list F) :=
  if step =? zero then Raise ArangeError
  else match fceil ((stop - start) / step) with
       | None => Raise ArangeError
       | Some len =>
           Return (map (fun i => start + of_int (Z.of_nat i) * step)
                       (seq 0 (Z.to_nat len)))
       end.

(** ** The integrator *)

(** [l[-1]] on a list that is never empty. *)
Definition lst (l : list F) : F := last l zero.

(** A three-element numpy array, and [h * np.array([a, b, c])]. *)
Definition vec3 : Type := (F * F * F)%type.
Definition ix0 (k : vec3) : F := fst (fst k).
Definition ix1 (k : vec3) : F := snd (fst k).
Definition ix2 (k : vec3) : F := snd k.
Definition scale (h : F) (v : vec3) : vec3 :=
  (h * ix0 v, h * ix1 v, h * ix2 v).

(** The three growing lists [f], [fp], [fpp]. *)
Definition lists : Type := (list F * list F * list F)%type.

(** One pass of the body of [for i in range(1, len(eta))]. *)
Definition rk4_body (h : F) (st : lists) : lists :=
  let '(f, fp, fpp) := st in
  let k1 := scale h (lst fp, lst fpp, - half * lst f * lst fpp) in
  let k2 := scale h (lst fp + half * ix1 k1, lst fpp + half * ix2 k1,
                     - half * (lst f + half * ix0 k1) * (lst fpp + half * ix2 k1)) in
  let k3 := scale h (lst fp + half * ix1 k2, lst fpp + half * ix2 k2,
                     - half * (lst f + half * ix0 k2) * (lst fpp + half * ix2 k2)) in
  let k4 := scale h (lst fp + ix1 k3, lst fpp + ix2 k3,
                     - half * (lst f + ix0 k3) * (lst fpp + ix2 k3)) in
  (f ++ [lst f + (ix0 k1 + two * ix0 k2 + two * ix0 k3 + ix0 k4) / six],
   fp ++ [lst fp + (ix1 k1 + two * ix1 k2 + two * ix1 k3 + ix1 k4) / six],
   fpp ++ [lst fpp + (ix2 k1 + two * ix2 k2 + two * ix2 k3 + ix2 k4) / six]).

(** The loop, [n] passes. *)
Fixpoint rk4_loop (n : nat) (h : F) (st : lists) : lists :=
  match n with
  | O => st
  | S n' => rk4_loop n' h (rk4_body h st)
  end.

Definition trajectory : Type := (list F * list F * list F * list F)%type.

Definition runge_kutta_4th_order (f1_0 eta_max h : F) : result trajectory :=
  let f := [zero] in
  let fp := [zero] in
  let fpp := [f1_0] in
  eta <- arange zero (eta_max + h) h ;;
  let '(f, fp, fpp) := rk4_loop (length eta - 1) h (f, fp, fpp) in
  Return (f, fp, fpp, eta).

(** ** The shooting loop *)

Definition not_converged_msg : string :=
  "Secant method did not converge after 100 iterations".

Definition solution : Type := (list F * list F * list F * F * nat)%type.

(** [for i in range(100)], with [n] passes left and [i] the loop index. *)
Fixpoint secant_loop (n i : nat) (tol eta_max h : F)
         (f1_0_old f2_old f1_0_new : F) : result solution :=
  match n with
  | O => Raise (RuntimeError not_converged_msg)
  | S n' =>
      '(f, fp, fpp, _) <- runge_kutta_4th_order f1_0_new eta_max h ;;
      let f2_new := lst fp in
      if fabs (f2_new - one) <? tol then
        Return (f, fp, fpp, f2_new, i)
      else
        let f1_0_temp := f1_0_new in
        let f1_0_new := f1_0_new - (f2_new - one) * (f1_0_new - f1_0_old)
                                    / (f2_new - f2_old) in
        secant_loop n' (S i) tol eta_max h f1_0_temp f2_new f1_0_new
  end.

Definition secant_method (f1_0_guesses : F * F) (tol eta_max h : F)
  : result solution :=
  let '(f1_0_old, f1_0_new) := f1_0_guesses in
  '(_, fp, _, _) <- runge_kutta_4th_order f1_0_old eta_max h ;;
  let f2_old := lst fp in
  secant_loop 100 0 tol eta_max h f1_0_old f2_old f1_0_new.

End Solver.

(** The notebook's default arguments, in binary64. *)
Definition default_tol : float := 1e-7%float.
Definition default_eta_max : float := 8.0%float.
Definition default_h : float := 0.1%float.

(** A double that is a NaN or an infinity. *)
Definition nonfinite (x : float) : Prop :=
  x = nan \/ x = infinity \/ x = neg_infinity.

(** [l[i] <= l[i+1]] along a list of doubles. *)
Fixpoint nondecreasing (l : list float) : bool :=
  match l with
  | x :: ((y :: _) as t) => PrimFloat.leb x y && nondecreasing t
  | _ => true
  end.

(** ** Vocabulary of the specification *)

Section Vocabulary.

Context {F : Type} {A : Arith F}.
Local Open Scope arith_scope.

(** *** The integrator step, as the specification words it *)

(** The state vector [(f, f', f'')], with vector sum and quotient. *)
Definition vadd (u v : vec3 (F:=F)) : vec3 :=
  (ix0 u + ix0 v, ix1 u + ix1 v, ix2 u + ix2 v).
Definition vdiv (u : vec3 (F:=F)) (c : F) : vec3 :=
  (ix0 u / c, ix1 u / c, ix2 u / c).

(** [D(s) = [s.f', s.f'', -0.5 * s.f * s.f'']]. *)
Definition D (s : vec3 (F:=F)) : vec3 :=
  (ix1 s, ix2 s, - half * ix0 s * ix2 s).

Definition spec_k1 (h : F) (s : vec3) : vec3 := scale h (D s).
Definition spec_k2 (h : F) (s : vec3) : vec3 :=
  scale h (D (vadd s (scale half (spec_k1 h s)))).
Definition spec_k3 (h : F) (s : vec3) : vec3 :=
  scale h (D (vadd s (scale half (spec_k2 h s)))).
Definition spec_k4 (h : F) (s : vec3) : vec3 :=
  scale h (D (vadd s (spec_k3 h s))).

(** [s_next = s + (k1 + 2 k2 + 2 k3 + k4) / 6]. *)
Definition spec_rk4_step (h : F) (s : vec3) : vec3 :=
  vadd s (vdiv (vadd (vadd (vadd (spec_k1 h s) (scale two (spec_k2 h s)))
                           (scale two (spec_k3 h s)))
                     (spec_k4 h s))
               six).

(** The state at the last grid point reached, and a state appended. *)
Definition last_state (st : lists (F:=F)) : vec3 :=
  let '(f, fp, fpp) := st in (lst f, lst fp, lst fpp).
Definition push (st : lists (F:=F)) (s : vec3 (F:=F)) : lists :=
  let '(f, fp, fpp) := st in (f ++ [ix0 s], fp ++ [ix1 s], fpp ++ [ix2 s]).

(** Consecutive entries of the three lists are linked by the RK4 step. *)
Definition rk4_chain (h : F) (st : lists (F:=F)) : Prop :=
  let '(f, fp, fpp) := st in
  forall i a b c a' b' c',
    nth_error f i = Some a -> nth_error fp i = Some b ->
    nth_error fpp i = Some c ->
    nth_error f (S i) = Some a' -> nth_error fp (S i) = Some b' ->
    nth_error fpp (S i) = Some c' ->
    (a', b', c') = spec_rk4_step h (a, b, c).

(** A list of zeros. *)
Definition zeros (l : list F) : Prop := Forall (eq zero) l.

(** *** The grid *)

Definition starts_at_zero (eta : list F) : Prop :=
  nth_error eta 0 = Some zero.
Definition strictly_increasing (eta : list F) : Prop :=
  forall i a b, nth_error eta i = Some a -> nth_error eta (S i) = Some b ->
                (a <? b) = true.
Definition uniform_spacing (h : F) (eta : list F) : Prop :=
  forall i a b, nth_error eta i = Some a -> nth_error eta (S i) = Some b ->
                b - a = h.
(** the length is [ceil(eta_max / h) + 1] *)
Definition grid_length (eta_max h : F) (eta : list F) : Prop :=
  exists c, fceil (eta_max / h) = Some c /\ Z.of_nat (length eta) = (c + 1)%Z.

Definition grid_property (eta_max h : F) (eta : list F) : Prop :=
  starts_at_zero eta /\ strictly_increasing eta /\
  uniform_spacing h eta /\ grid_length eta_max h eta.

(** *** The shooting iteration *)

(** The trajectory of a trial parameter over a grid that was built. *)
Definition integrate (f1_0 h : F) (eta : list F) : lists :=
  rk4_loop (length eta - 1) h ([zero], [zero], [f1_0]).

(** [f'] at the last grid point, for a trial parameter. *)
Definition final_fp (h : F) (eta : list F) (f1_0 : F) : F :=
  lst (snd (fst (integrate f1_0 h eta))).

(** The residual [R = f'(eta_max) - 1]. *)
Definition residual (f2 : F) : F := f2 - one.

(** The secant formula of the specification, over residuals. *)
Definition spec_secant_next (x_old R_old x_new R_new : F) : F :=
  x_new - R_new * (x_new - x_old) / (R_new - R_old).

(** The rolling state of [secant_method]: [(f1_0_old, f2_old, f1_0_new)]. *)
Definition shoot_state : Type := (F * F * F)%type.
Definition guess (st : shoot_state) : F := snd st.

(** The state after one more pass that did not converge. *)
Definition shift (h : F) (eta : list F) (st : shoot_state) : shoot_state :=
  let '(f1_0_old, f2_old, f1_0_new) := st in
  let f2_new := final_fp h eta f1_0_new in
  (f1_0_new, f2_new,
   f1_0_new - (f2_new - one) * (f1_0_new - f1_0_old) / (f2_new - f2_old)).

(** The state at the start of pass [i], when no earlier pass returned. *)
Fixpoint state_at (h : F) (eta : list F) (st0 : shoot_state) (i : nat)
  : shoot_state :=
  match i with
  | O => st0
  | S i' => shift h eta (state_at h eta st0 i')
  end.

Definition initial_state (h : F) (eta : list F) (f1_0_guesses : F * F)
  : shoot_state :=
  (fst f1_0_guesses, final_fp h eta (fst f1_0_guesses), snd f1_0_guesses).

(** The test [abs(f2_new - 1) < tol] of pass [i]. *)
Definition converged (tol h : F) (eta : list F) (st : shoot_state) : bool :=
  fabs (final_fp h eta (guess st) - one) <? tol.

(** The loop with [n] passes left, at pass [i], from a rolling state. *)
Definition run (n i : nat) (tol eta_max h : F) (st : shoot_state)
  : result solution :=
  let '(f1_0_old, f2_old, f1_0_new) := st in
  secant_loop n i tol eta_max h f1_0_old f2_old f1_0_new.

(** What a converged pass [i] returns. *)
Definition answer (h : F) (eta : list F) (st : shoot_state) (i : nat)
  : solution :=
  let '(f, fp, fpp) := integrate (guess st) h eta in
  (f, fp, fpp, lst fp, i).

(** The two passes gave the same final [f'], so the same residual: the
    denominator [f2_new - f2_old] of the secant update is zero. *)
Definition degenerate (h : F) (eta : list F) (st : shoot_state) : Prop :=
  let '(_, f2_old, f1_0_new) := st in
  final_fp h eta f1_0_new - f2_old = zero.

(** A failure other than the two the code can end in. *)
Definition raises_distinct_error (r : result (solution (F:=F))) : Prop :=
  exists e, r = Raise e /\ e <> RuntimeError not_converged_msg /\
            e <> ArangeError.

(** The residual of the last pass of a run that used all its 100 passes. *)
Definition achieved_residual (f1_0_guesses : F * F) (eta_max h : F) : F :=
  match arange zero (eta_max + h) h with
  | Return eta =>
      residual (final_fp h eta
                  (guess (state_at h eta (initial_state h eta f1_0_guesses) 99)))
  | Raise _ => zero
  end.

(** The error of a failed run carries the residual the run achieved: the
    residual can be read off the exception. *)
Definition error_carries_residual : Prop :=
  exists residual_of : exn -> F,
    forall f1_0_guesses tol eta_max h e,
      secant_method f1_0_guesses tol eta_max h = Raise e ->
      residual_of e = achieved_residual f1_0_guesses eta_max h.

End Vocabulary.

(** ** The integrator *)

Section Integrator.

Context {F : Type} {A : Arith F}.
Local Open Scope arith_scope.

Lemma rk4_body_push (h : F) (st : lists) :
  rk4_body h st = push st (spec_rk4_step h (last_state st)).
Proof. destruct st as [[f fp] fpp]. reflexivity. Qed.

(** The code's result is the trajectory over the grid [arange] built. *)
Lemma runge_kutta_integrate (f1_0 eta_max h : F) :
  runge_kutta_4th_order f1_0 eta_max h =
  (eta <- arange zero (eta_max + h) h ;;
   let '(f, fp, fpp) := integrate f1_0 h eta in Return (f, fp, fpp, eta)).
Proof. reflexivity. Qed.

Lemma runge_kutta_returns (f1_0 eta_max h : F) (eta : list F) :
  arange zero (eta_max + h) h = Return eta ->
  runge_kutta_4th_order f1_0 eta_max h =
  (let '(f, fp, fpp) := integrate f1_0 h eta in Return (f, fp, fpp, eta)).
Proof. intros H. rewrite runge_kutta_integrate, H. reflexivity. Qed.

Lemma runge_kutta_raises (f1_0 eta_max h : F) (e : exn) :
  arange zero (eta_max + h) h = Raise e ->
  runge_kutta_4th_order f1_0 eta_max h = Raise e.
Proof. intros H. rewrite runge_kutta_integrate, H. reflexivity. Qed.

Lemma runge_kutta_inv (f1_0 eta_max h : F) f fp fpp eta :
  runge_kutta_4th_order f1_0 eta_max h = Return (f, fp, fpp, eta) ->
  arange zero (eta_max + h) h = Return eta /\
  integrate f1_0 h eta = (f, fp, fpp).
Proof.
  rewrite runge_kutta_integrate.
  destruct (arange zero (eta_max + h) h) as [eta'|e]; simpl; [|discriminate].
  destruct (integrate f1_0 h eta') as [[f' fp'] fpp'] eqn:E.
  intros H; inversion H; subst. auto.
Qed.

Lemma arange_raises_ArangeError (start stop step : F) (e : exn) :
  arange start stop step = Raise e -> e = ArangeError.
Proof.
  unfold arange. destruct (step =? zero); [congruence|].
  destruct (fceil _); congruence.
Qed.

(** Each pass appends one value to each list. *)
Lemma rk4_loop_length (n : nat) (h : F) (f fp fpp f' fp' fpp' : list F) :
  rk4_loop n h (f, fp, fpp) = (f', fp', fpp') ->
  length f' = (length f + n)%nat /\
  length fp' = (length fp + n)%nat /\
  length fpp' = (length fpp + n)%nat.
Proof.
  revert f fp fpp. induction n as [|n IH]; intros f fp fpp H.
  - inversion H; subst. lia.
  - simpl in H. unfold rk4_body in H. apply IH in H.
    rewrite !length_app in H. simpl in H. lia.
Qed.

(** ... and leaves the values already there in place. *)
Lemma rk4_loop_prefix (n : nat) (h : F) (f fp fpp f' fp' fpp' : list F) :
  rk4_loop n h (f, fp, fpp) = (f', fp', fpp') ->
  exists xf xfp xfpp,
    f' = f ++ xf /\ fp' = fp ++ xfp /\ fpp' = fpp ++ xfpp.
Proof.
  revert f fp fpp. induction n as [|n IH]; intros f fp fpp H.
  - inversion H; subst. exists [], [], []. rewrite !app_nil_r. auto.
  - simpl in H. unfold rk4_body in H. apply IH in H.
    destruct H as (xf & xfp & xfpp & -> & -> & ->).
    do 3 eexists. repeat split; rewrite <- app_assoc; reflexivity.
Qed.

(** The entries of the lists are linked by the RK4 step. *)
Lemma nth_error_lst (l : list F) (i : nat) (a : F) :
  S i = length l -> nth_error l i = Some a -> lst l = a.
Proof.
  unfold lst. revert i. induction l as [|x l IH]; intros i L H.
  - discriminate L.
  - destruct l as [|y l].
    + simpl in L. injection L as ->. simpl in *. congruence.
    + destruct i as [|i]; [simpl in L; discriminate L|].
      injection L as L. exact (IH i (f_equal S L) H).
Qed.

Lemma nth_error_snoc (l : list F) (x : F) (i : nat) (a : F) :
  nth_error (l ++ [x]) i = Some a ->
  (i < length l /\ nth_error l i = Some a) \/ (i = length l /\ a = x).
Proof.
  intros H. destruct (Nat.lt_ge_cases i (length l)) as [L|L].
  - left. rewrite nth_error_app1 in H by exact L. auto.
  - right. rewrite nth_error_app2 in H by exact L.
    destruct (i - length l)%nat as [|k] eqn:E.
    + simpl in H. split; [lia|congruence].
    + destruct k; discriminate H.
Qed.

Lemma rk4_body_chain (h : F) (f fp fpp : list F) :
  length f = length fp -> length fp = length fpp ->
  rk4_chain h (f, fp, fpp) -> rk4_chain h (rk4_body h (f, fp, fpp)).
Proof.
  intros L1 L2 C. rewrite rk4_body_push. unfold push, last_state, rk4_chain.
  intros i a b c a' b' c' Ha Hb Hc Ha' Hb' Hc'.
  apply nth_error_snoc in Ha, Hb, Hc, Ha', Hb', Hc'.
  destruct Ha' as [[La' Ha']|[La' ->]].
  - destruct Hb' as [[_ Hb']|[Lb' _]]; [|lia].
    destruct Hc' as [[_ Hc']|[Lc' _]]; [|lia].
    destruct Ha as [[_ Ha]|[La _]]; [|lia].
    destruct Hb as [[_ Hb]|[Lb _]]; [|lia].
    destruct Hc as [[_ Hc]|[Lc _]]; [|lia].
    exact (C i a b c a' b' c' Ha Hb Hc Ha' Hb' Hc').
  - destruct Hb' as [[Lb' _]|[_ ->]]; [lia|].
    destruct Hc' as [[Lc' _]|[_ ->]]; [lia|].
    destruct Ha as [[_ Ha]|[La _]]; [|lia].
    destruct Hb as [[_ Hb]|[Lb _]]; [|lia].
    destruct Hc as [[_ Hc]|[Lc _]]; [|lia].
    rewrite (nth_error_lst f i a La' Ha).
    rewrite (nth_error_lst fp i b) by (exact Hb || lia).
    rewrite (nth_error_lst fpp i c) by (exact Hc || lia).
    destruct (spec_rk4_step h (a, b, c)) as [[x y] z]. reflexivity.
Qed.

Lemma rk4_loop_chain (n : nat) (h : F) (f fp fpp : list F) :
  length f = length fp -> length fp = length fpp ->
  rk4_chain h (f, fp, fpp) -> rk4_chain h (rk4_loop n h (f, fp, fpp)).
Proof.
  revert f fp fpp. induction n as [|n IH]; intros f fp fpp L1 L2 C.
  - exact C.
  - change (rk4_loop (S n) h (f, fp, fpp))
      with (rk4_loop n h (rk4_body h (f, fp, fpp))).
    pose proof (rk4_body_chain h f fp fpp L1 L2 C) as C'.
    unfold rk4_body in C' |- *. apply IH; [| |exact C'];
      rewrite !length_app; simpl; lia.
Qed.

Lemma runge_kutta_chain (f1_0 eta_max h : F) (f fp fpp eta : list F) :
  runge_kutta_4th_order f1_0 eta_max h = Return (f, fp, fpp, eta) ->
  rk4_chain h (f, fp, fpp).
Proof.
  intros H. apply runge_kutta_inv in H. destruct H as [_ H].
  unfold integrate in H. rewrite <- H. apply rk4_loop_chain; try reflexivity.
  intros [|i] a b c a' b' c' _ _ _ Ha'; discriminate Ha'.
Qed.
End Integrator.


(** C7.  Whatever the trial parameter, the domain bound and the step, the
    sequences an integration returns start with [f[0] = 0], [fp[0] = 0] and
    [fpp[0] = f1_0]. *)
Theorem initial_condition (F : Type) (A : Arith F) (f1_0 eta_max h : F)
        (f fp fpp eta : list F) :
  runge_kutta_4th_order f1_0 eta_max h = Return (f, fp, fpp, eta) ->
  nth_error f 0 = Some zero /\
  nth_error fp 0 = Some zero /\
  nth_error fpp 0 = Some f1_0.
Proof.
  intros H. apply runge_kutta_inv in H. destruct H as [_ H].
  apply rk4_loop_prefix in H.
  destruct H as (xf & xfp & xfpp & -> & -> & ->). repeat split.
Qed.

Lemma initial_condition_witness :
  exists f fp fpp eta,
    runge_kutta_4th_order 0.332%float default_eta_max default_h
    = Return (f, fp, fpp, eta) /\
    nth_error f 0 = Some 0%float /\
    nth_error fp 0 = Some 0%float /\
    nth_error fpp 0 = Some 0.332%float.
Proof.
  destruct (runge_kutta_4th_order 0.332%float default_eta_max default_h)
    as [[[[f fp] fpp] eta]|e] eqn:E; [|vm_compute in E; discriminate E].
  exists f, fp, fpp, eta. split; [reflexivity|].
  exact (initial_condition _ _ _ _ _ _ _ _ _ E).
Defined.

(** C8, as the code has it.  The three lists [f], [fp] and [fpp] an
    integration returns always have one common length, the number of grid
    points or 1 when the grid is empty; so all four sequences have the same
    length exactly when the grid has a point. *)
Theorem trajectory_lengths (F : Type) (A : Arith F) (f1_0 eta_max h : F)
        (f fp fpp eta : list F) :
  runge_kutta_4th_order f1_0 eta_max h = Return (f, fp, fpp, eta) ->
  length f = Nat.max 1 (length eta) /\
  length fp = Nat.max 1 (length eta) /\
  length fpp = Nat.max 1 (length eta) /\
  (eta <> [] ->
   length f = length eta /\ length fp = length eta /\
   length fpp = length eta).
Proof.
  intros H. apply runge_kutta_inv in H. destruct H as [_ H].
  apply rk4_loop_length in H. simpl in H.
  assert (eta <> [] -> length eta <> 0%nat)
    by (destruct eta; simpl; congruence).
  destruct eta as [|x eta]; simpl in *; [|assert (x :: eta <> []) by congruence];
    repeat split; try lia; intros; try congruence; lia.
Qed.

Lemma trajectory_lengths_witness :
  exists f fp fpp eta,
    runge_kutta_4th_order 0.332%float default_eta_max default_h
    = Return (f, fp, fpp, eta) /\
    length eta = 81%nat /\
    length f = 81%nat /\ length fp = 81%nat /\ length fpp = 81%nat.
Proof.
  destruct (runge_kutta_4th_order 0.332%float default_eta_max default_h)
    as [[[[f fp] fpp] eta]|e] eqn:E; [|vm_compute in E; discriminate E].
  exists f, fp, fpp, eta. split; [reflexivity|].
  assert (L : length eta = 81%nat).
  { vm_compute in E. inversion E. reflexivity. }
  destruct (trajectory_lengths _ _ _ _ _ _ _ _ _ E) as (H1 & H2 & H3 & _).
  rewrite L in *. auto.
Defined.

(** C8, as the specification words it, fails: for [eta_max = -1] and
    [h = 0.5] the grid is empty while [f], [fp] and [fpp] hold the initial
    condition. *)
Lemma trajectory_lengths_counterexample :
  (zero <? 0.5%float)%A = true /\
  exists f fp fpp eta,
    runge_kutta_4th_order 0.332%float (-1)%float 0.5%float
    = Return (f, fp, fpp, eta) /\
    length eta = 0%nat /\ length f = 1%nat /\
    ~ (length f = length eta /\ length fp = length eta /\
       length fpp = length eta).
Proof.
  split; [reflexivity|].
  exists [0%float], [0%float], [0.332%float], [].
  split; [vm_compute; reflexivity|].
  simpl. repeat split; try reflexivity. intros [H _]. discriminate H.
Qed.

(** ** Exact arithmetic *)

Lemma exactQ_field :
  field_theory (zero (F:=Qc)) one fadd fmul fsub fneg fdiv Qcinv eq.
Proof. exact Qcft. Qed.

Lemma exactQ_ring : ring_theory (zero (F:=Qc)) one fadd fmul fsub fneg eq.
Proof. exact Qcrt. Qed.

Section ZeroLoop.

Context {F : Type} {A : Arith F}.
Local Open Scope arith_scope.

Lemma lst_zeros (l : list F) : zeros l -> lst l = zero.
Proof.
  unfold lst. induction 1 as [|x l Hx Hl IH]; [reflexivity|].
  destruct l; [symmetry; exact Hx|exact IH].
Qed.

Lemma zeros_snoc (l : list F) : zeros l -> zeros (l ++ [zero]).
Proof. intros H. apply Forall_app. split; [exact H|repeat constructor]. Qed.

Lemma zeros_nth_error (l : list F) (i : nat) (x : F) :
  zeros l -> nth_error l i = Some x -> x = zero.
Proof.
  unfold zeros. rewrite Forall_forall. intros H Hx. symmetry.
  apply H. eapply nth_error_In. exact Hx.
Qed.

(** A step [h] whose RK4 step keeps the zero state keeps the lists zero. *)
Variable h : F.
Hypothesis step_zero :
  spec_rk4_step h (zero, zero, zero) = (zero, zero, zero).

Lemma rk4_loop_zeros (n : nat) (f fp fpp f' fp' fpp' : list F) :
  zeros f -> zeros fp -> zeros fpp ->
  rk4_loop n h (f, fp, fpp) = (f', fp', fpp') ->
  zeros f' /\ zeros fp' /\ zeros fpp'.
Proof.
  revert f fp fpp. induction n as [|n IH]; intros f fp fpp Hf Hfp Hfpp H.
  - inversion H; subst. auto.
  - change (rk4_loop (S n) h (f, fp, fpp))
      with (rk4_loop n h (rk4_body h (f, fp, fpp))) in H.
    rewrite rk4_body_push in H. unfold last_state in H.
    rewrite (lst_zeros _ Hf), (lst_zeros _ Hfp), (lst_zeros _ Hfpp) in H.
    rewrite step_zero in H. unfold push, ix0, ix1, ix2 in H.
    simpl in H. apply IH in H; auto using zeros_snoc.
Qed.

Lemma runge_kutta_zero (eta_max : F) (f fp fpp eta : list F) :
  runge_kutta_4th_order zero eta_max h = Return (f, fp, fpp, eta) ->
  zeros f /\ zeros fp /\ zeros fpp.
Proof.
  intros H. apply runge_kutta_inv in H. destruct H as [_ H].
  apply rk4_loop_zeros in H; auto; repeat constructor.
Qed.

End ZeroLoop.

Section ZeroBranch.

Context {F : Type} {A : Arith F}.
Variable finv : F -> F.
Hypothesis exact : field_theory zero one fadd fmul fsub fneg fdiv finv eq.
Local Open Scope arith_scope.

Add Field exact_field : exact.

Lemma zero_over (c : F) : zero / c = zero.
Proof. rewrite (Fdiv_def exact). ring. Qed.

(** The zero state is a fixed point of [D] ... *)
Lemma D_zero : D (zero, zero, zero) = (zero, zero, zero).
Proof. unfold D, ix0, ix1, ix2; simpl. repeat f_equal. ring. Qed.

Lemma scale_zero (c : F) : scale c (zero, zero, zero) = (zero, zero, zero).
Proof. unfold scale, ix0, ix1, ix2; simpl. repeat f_equal; ring. Qed.

Lemma vadd_zero :
  vadd (zero, zero, zero) (zero, zero, zero) = (zero, zero, zero).
Proof. unfold vadd, ix0, ix1, ix2; simpl. repeat f_equal; ring. Qed.

(** ... and of the RK4 step. *)
Lemma spec_rk4_step_zero (h : F) :
  spec_rk4_step h (zero, zero, zero) = (zero, zero, zero).
Proof.
  unfold spec_rk4_step, spec_k4, spec_k3, spec_k2, spec_k1.
  repeat (rewrite ?D_zero, ?scale_zero, ?vadd_zero).
  unfold vdiv, ix0, ix1, ix2; simpl. rewrite zero_over. apply vadd_zero.
Qed.

End ZeroBranch.




(** *** The zero branch in binary64 *)

Section ZeroBranchBinary64.

Local Open Scope float_scope.

(** A positive step for which [arange] builds a grid is a finite double. *)
Lemma b64_positive_finite (eta_max h : float) (eta : list float) :
  (0 <? h) = true ->
  arange (A:=binary64) zero (eta_max + h) h = Return eta ->
  exists m e, Prim2SF h = S754_finite false m e.
Proof.
  intros Hpos G.
  rewrite ltb_spec in Hpos. change (Prim2SF 0) with (S754_zero false) in Hpos.
  destruct (Prim2SF h) as [s|s| |s m e] eqn:Eh.
  - discriminate Hpos.
  - (* infinity *)
    destruct s; [discriminate Hpos|].
    exfalso. unfold arange in G.
    destruct (feq h zero); [discriminate G|].
    cbv [fceil fdiv fsub fadd zero of_int binary64 B64.of_Z B64.ceil] in G.
    rewrite div_spec, sub_spec, add_spec, Eh in G.
    change (Prim2SF 0) with (S754_zero false) in G.
    destruct (Prim2SF eta_max) as [s'|s'| |s' m' e']; try destruct s';
      vm_compute in G; discriminate G.
  - discriminate Hpos.
  - destruct s; [discriminate Hpos|]. eauto.
Qed.

Lemma b64_mul_zero (h : float) (m : positive) (e : Z) :
  Prim2SF h = S754_finite false m e ->
  h * 0 = 0 /\ h * neg_zero = neg_zero.
Proof.
  intros Eh. split; apply Prim2SF_inj; rewrite mul_spec, Eh; reflexivity.
Qed.

Lemma b64_step_zero (h : float) (m : positive) (e : Z) :
  Prim2SF h = S754_finite false m e ->
  spec_rk4_step (A:=binary64) h (zero, zero, zero) = (zero, zero, zero).
Proof.
  intros Eh. destruct (b64_mul_zero h m e Eh) as [H0 Hm0].
  unfold neg_zero in Hm0.
  repeat (progress (vm_compute; rewrite ?H0, ?Hm0)).
  reflexivity.
Qed.

(** The same in binary64, the arithmetic the code runs in: for every step
    [h > 0] for which the integrator returns, the trajectory of the trial
    parameter 0 is zero at every grid point (the stages are signed zeros,
    the states [+0.0]). *)
Theorem binary64_zero_trajectory (eta_max h : float)
        (f fp fpp eta : list float) :
  (zero <? h)%A = true ->
  runge_kutta_4th_order (A:=binary64) zero eta_max h
  = Return (f, fp, fpp, eta) ->
  (forall i x, nth_error f i = Some x -> x = 0) /\
  (forall i x, nth_error fp i = Some x -> x = 0) /\
  (forall i x, nth_error fpp i = Some x -> x = 0).
Proof.
  intros Hpos R.
  destruct (runge_kutta_inv _ _ _ _ _ _ _ R) as [G _].
  destruct (b64_positive_finite eta_max h eta Hpos G) as (m & e & Eh).
  destruct (runge_kutta_zero h (b64_step_zero h m e Eh) _ _ _ _ _ R)
    as (Hf & Hfp & Hfpp).
  repeat split; intros i x Hx;
    [exact (zeros_nth_error f i x Hf Hx)
    |exact (zeros_nth_error fp i x Hfp Hx)
    |exact (zeros_nth_error fpp i x Hfpp Hx)].
Qed.

Lemma binary64_zero_trajectory_witness :
  exists f fp fpp eta,
    runge_kutta_4th_order (A:=binary64) zero default_eta_max default_h
    = Return (f, fp, fpp, eta) /\
    length f = 81%nat /\
    (forall i x, nth_error f i = Some x -> x = 0) /\
    (forall i x, nth_error fp i = Some x -> x = 0) /\
    (forall i x, nth_error fpp i = Some x -> x = 0).
Proof.
  destruct (runge_kutta_4th_order (A:=binary64) zero default_eta_max default_h)
    as [[[[f fp] fpp] eta]|e] eqn:E; [|vm_compute in E; discriminate E].
  exists f, fp, fpp, eta. split; [reflexivity|]. split.
  - vm_compute in E. inversion E. reflexivity.
  - apply (binary64_zero_trajectory default_eta_max default_h f fp fpp eta);
      [reflexivity|exact E].
Defined.

End ZeroBranchBinary64.

(** ** The shooting loop *)

Section Shooting.

Context {F : Type} {A : Arith F}.
Local Open Scope arith_scope.
Variables tol eta_max h : F.
Variable eta : list F.
Hypothesis grid : arange zero (eta_max + h) h = Return eta.

Lemma runge_kutta_on_grid (f1_0 : F) :
  runge_kutta_4th_order f1_0 eta_max h =
  (let '(f, fp, fpp) := integrate f1_0 h eta in Return (f, fp, fpp, eta)).
Proof. apply runge_kutta_returns, grid. Qed.

(** One pass of the loop: return at a converged guess, shift otherwise. *)
Lemma run_pass (n i : nat) (st : shoot_state) :
  run (S n) i tol eta_max h st =
  if converged tol h eta st then Return (answer h eta st i)
  else run n (S i) tol eta_max h (shift h eta st).
Proof.
  destruct st as [[f1_0_old f2_old] f1_0_new].
  unfold run, converged, answer, shift, guess, final_fp.
  cbn [secant_loop fst snd].
  rewrite runge_kutta_on_grid.
  destruct (integrate f1_0_new h eta) as [[f fp] fpp]. cbn [bind fst snd].
  destruct (fabs (lst fp - one) <? tol); reflexivity.
Qed.

Lemma run_exhausted (i : nat) (st : shoot_state) :
  run 0 i tol eta_max h st = Raise (RuntimeError not_converged_msg).
Proof. destruct st as [[? ?] ?]. reflexivity. Qed.

Lemma state_at_shift (st : shoot_state) (j : nat) :
  state_at h eta (shift h eta st) j = state_at h eta st (S j).
Proof. induction j as [|j IH]; [reflexivity|]. simpl. rewrite IH. reflexivity. Qed.

(** The loop either returns at its first converged pass or runs out. *)
Lemma run_cases (n : nat) : forall (i : nat) (st : shoot_state),
  (exists k, k < n /\
     (forall j, j < k -> converged tol h eta (state_at h eta st j) = false) /\
     converged tol h eta (state_at h eta st k) = true /\
     run n i tol eta_max h st = Return (answer h eta (state_at h eta st k) (i + k))) \/
  ((forall j, j < n -> converged tol h eta (state_at h eta st j) = false) /\
   run n i tol eta_max h st = Raise (RuntimeError not_converged_msg)).
Proof.
  induction n as [|n IH]; intros i st.
  - right. split; [intros j Hj; lia|apply run_exhausted].
  - rewrite run_pass.
    destruct (converged tol h eta st) eqn:C.
    + left. exists 0. repeat split; [lia|intros j Hj; lia|exact C|].
      rewrite Nat.add_0_r. reflexivity.
    + destruct (IH (S i) (shift h eta st))
        as [(k & Hk & Hbefore & Hat & Hrun)|[Hall Hrun]].
      * left. exists (S k). rewrite state_at_shift in Hat, Hrun.
        repeat split; [lia| |exact Hat|].
        -- intros [|j] Hj; [exact C|].
           rewrite <- state_at_shift. apply Hbefore. lia.
        -- rewrite Hrun. f_equal. f_equal. lia.
      * right. split; [|exact Hrun].
        intros [|j] Hj; [exact C|].
        rewrite <- state_at_shift. apply Hall. lia.
Qed.

Lemma secant_method_run (f1_0_guesses : F * F) :
  secant_method f1_0_guesses tol eta_max h =
  run 100 0 tol eta_max h (initial_state h eta f1_0_guesses).
Proof.
  destruct f1_0_guesses as [f1_0_old f1_0_new].
  unfold secant_method, initial_state, run, final_fp.
  rewrite runge_kutta_on_grid. cbn [fst snd].
  destruct (integrate f1_0_old h eta) as [[f fp] fpp]. reflexivity.
Qed.

(** Two first converged passes are the same pass. *)
Lemma first_converged_unique (st : shoot_state) (i k : nat) :
  (forall j, j < i -> converged tol h eta (state_at h eta st j) = false) ->
  converged tol h eta (state_at h eta st i) = true ->
  (forall j, j < k -> converged tol h eta (state_at h eta st j) = false) ->
  converged tol h eta (state_at h eta st k) = true ->
  i = k.
Proof.
  intros Hi Ci Hk Ck.
  destruct (Nat.lt_trichotomy i k) as [L|[E|L]]; [|exact E|].
  - rewrite (Hk i L) in Ci. discriminate.
  - rewrite (Hi k L) in Ck. discriminate.
Qed.

Lemma secant_method_converges (f1_0_guesses : F * F) (i : nat) :
  let st := initial_state h eta f1_0_guesses in
  i < 100 ->
  (forall j, j < i -> converged tol h eta (state_at h eta st j) = false) ->
  converged tol h eta (state_at h eta st i) = true ->
  secant_method f1_0_guesses tol eta_max h =
  Return (answer h eta (state_at h eta st i) i).
Proof.
  intros st Hi Hbefore Hat. rewrite secant_method_run. fold st.
  destruct (run_cases 100 0 st) as [(k & Hk & Hb & Ha & Hrun)|[Hall _]].
  - rewrite Hrun. rewrite (first_converged_unique st i k Hbefore Hat Hb Ha).
    reflexivity.
  - rewrite (Hall i Hi) in Hat. discriminate.
Qed.

Lemma secant_method_exhausts (f1_0_guesses : F * F) :
  let st := initial_state h eta f1_0_guesses in
  secant_method f1_0_guesses tol eta_max h
  = Raise (RuntimeError not_converged_msg) <->
  (forall j, j < 100 -> converged tol h eta (state_at h eta st j) = false).
Proof.
  intros st. rewrite secant_method_run. fold st.
  destruct (run_cases 100 0 st) as [(k & Hk & Hb & Ha & Hrun)|[Hall Hrun]].
  - rewrite Hrun. split; [discriminate|].
    intros Hall. rewrite (Hall k Hk) in Ha. discriminate.
  - rewrite Hrun. split; auto.
Qed.

Lemma secant_method_raises (f1_0_guesses : F * F) (e : exn) :
  secant_method f1_0_guesses tol eta_max h = Raise e ->
  e = RuntimeError not_converged_msg.
Proof.
  rewrite secant_method_run.
  destruct (run_cases 100 0 (initial_state h eta f1_0_guesses))
    as [(k & _ & _ & _ & Hrun)|[_ Hrun]]; rewrite Hrun; congruence.
Qed.

End Shooting.

(** C5.  When pass [i] is the first whose guess has
    [|f'(eta_max) - 1| < tol], [secant_method] returns the trajectory of that
    guess, its final [f'] itself (not the residual [f' - 1]) and [i]. *)
Theorem returns_first_converged (F : Type) (A : Arith F) (tol eta_max h : F)
        (f1_0_guesses : F * F) (eta : list F) (i : nat) :
  arange zero (eta_max + h)%A h = Return eta ->
  i < 100 ->
  (forall j, j < i ->
     converged tol h eta
       (state_at h eta (initial_state h eta f1_0_guesses) j) = false) ->
  converged tol h eta
    (state_at h eta (initial_state h eta f1_0_guesses) i) = true ->
  exists f fp fpp,
    runge_kutta_4th_order
      (guess (state_at h eta (initial_state h eta f1_0_guesses) i)) eta_max h
    = Return (f, fp, fpp, eta) /\
    (fabs (lst fp - one) <? tol)%A = true /\
    secant_method f1_0_guesses tol eta_max h = Return (f, fp, fpp, lst fp, i).
Proof.
  intros G Hi Hbefore Hat.
  rewrite (secant_method_converges tol eta_max h eta G f1_0_guesses i
             Hi Hbefore Hat).
  rewrite (runge_kutta_on_grid eta_max h eta G).
  unfold converged, final_fp in Hat. unfold answer.
  destruct (integrate _ h eta) as [[f fp] fpp].
  exists f, fp, fpp. auto.
Qed.

Lemma returns_first_converged_witness :
  exists f fp fpp,
    secant_method (0.01, 5.0)%float default_tol default_eta_max default_h
    = Return (f, fp, fpp, lst fp, 7) /\
    nth_error fpp 0 = Some 0.33205920313754467%float /\
    lst fp = 1.000000004777214%float.
Proof.
  destruct (arange (A:=binary64) zero (default_eta_max + default_h)%A default_h)
    as [eta|e] eqn:G; [|vm_compute in G; discriminate G].
  assert (G' := G). vm_compute in G'. injection G' as <-.
  destruct (returns_first_converged float binary64 default_tol default_eta_max
              default_h (0.01, 5.0)%float _ 7 G) as (f & fp & fpp & R & _ & S).
  - lia.
  - intros j Hj.
    do 7 (destruct j as [|j]; [vm_compute; reflexivity|]). lia.
  - vm_compute. reflexivity.
  - exists f, fp, fpp. split; [exact S|].
    vm_compute in R. injection R as <- <- <-. split; reflexivity.
Defined.

(** C10.  When the second seed guess already has [|f'(eta_max) - 1| < tol],
    [secant_method] returns its trajectory, its final [f'] and the count 0,
    whatever the first seed guess is: two calls that differ in the first
    guess only return the same. *)
Theorem converged_seed_ignores_first_guess (F : Type) (A : Arith F)
        (tol eta_max h f1_0_new : F) (f fp fpp eta : list F) :
  runge_kutta_4th_order f1_0_new eta_max h = Return (f, fp, fpp, eta) ->
  (fabs (lst fp - one) <? tol)%A = true ->
  forall f1_0_old f1_0_old' : F,
    secant_method (f1_0_old, f1_0_new) tol eta_max h
    = Return (f, fp, fpp, lst fp, 0) /\
    secant_method (f1_0_old', f1_0_new) tol eta_max h
    = secant_method (f1_0_old, f1_0_new) tol eta_max h.
Proof.
  intros R C. apply runge_kutta_inv in R. destruct R as [G I].
  assert (H : forall o, secant_method (o, f1_0_new) tol eta_max h
                        = Return (f, fp, fpp, lst fp, 0)).
  { intros o.
    rewrite (secant_method_converges tol eta_max h eta G (o, f1_0_new) 0).
    - unfold answer, initial_state, guess. simpl. rewrite I. reflexivity.
    - lia.
    - intros j Hj. lia.
    - unfold converged, initial_state, guess, final_fp. simpl.
      rewrite I. exact C. }
  intros o o'. rewrite (H o), (H o'). auto.
Qed.

Lemma converged_seed_ignores_first_guess_witness :
  exists f fp fpp,
    secant_method (1.0, 0.33206)%float 1e-4%float default_eta_max default_h
    = Return (f, fp, fpp, 1.0000016046949978%float, 0) /\
    secant_method (0.01, 0.33206)%float 1e-4%float default_eta_max default_h
    = secant_method (1.0, 0.33206)%float 1e-4%float default_eta_max default_h.
Proof.
  destruct (runge_kutta_4th_order 0.33206%float default_eta_max default_h)
    as [[[[f fp] fpp] eta]|e] eqn:R; [|vm_compute in R; discriminate R].
  assert (L : lst fp = 1.0000016046949978%float).
  { vm_compute in R. injection R as <- <- <- <-. reflexivity. }
  exists f, fp, fpp. rewrite <- L.
  apply (converged_seed_ignores_first_guess float binary64 1e-4%float
           default_eta_max default_h 0.33206%float f fp fpp eta R).
  rewrite L. reflexivity.
Defined.

(** ** The secant update *)

Section SecantUpdate.

Context {F : Type} {A : Arith F}.
Local Open Scope arith_scope.
Hypothesis exact : ring_theory zero one fadd fmul fsub fneg eq.

Add Ring exact_ring : exact.

(** The [- 1] offsets cancel in the denominator. *)
Lemma residual_difference (f2_new f2_old : F) :
  residual f2_new - residual f2_old = f2_new - f2_old.
Proof. unfold residual. ring. Qed.

Lemma update_is_spec_secant_next (f1_0_old f2_old f1_0_new f2_new : F) :
  f1_0_new - (f2_new - one) * (f1_0_new - f1_0_old) / (f2_new - f2_old) =
  spec_secant_next f1_0_old (residual f2_old) f1_0_new (residual f2_new).
Proof.
  unfold spec_secant_next. rewrite residual_difference. reflexivity.
Qed.

End SecantUpdate.

(** C2, as the code has it.  In every arithmetic, a pass of the shooting
    loop that does not converge continues with the next trial parameter
    [f1_0_new - R_new (f1_0_new - f1_0_old) / (f2_new - f2_old)]: the
    residual [R_new = f2_new - 1] in the numerator, the difference of the
    two final [f'] values as denominator, and with the rolling state shifted
    to the guess and final [f'] of this pass.  That is the secant formula of
    the specification over residuals whenever [R_new - R_old] and
    [f2_new - f2_old] are the same number as computed, as they are in exact
    arithmetic (a commutative ring). *)
Theorem secant_update_as_computed (F : Type) (A : Arith F)
        (tol eta_max h : F) (eta : list F) (n i : nat)
        (f1_0_old f2_old f1_0_new : F) :
  arange zero (eta_max + h)%A h = Return eta ->
  converged tol h eta (f1_0_old, f2_old, f1_0_new) = false ->
  let f2_new := final_fp h eta f1_0_new in
  let R_old := residual f2_old in
  let R_new := residual f2_new in
  let next := (f1_0_new - R_new * (f1_0_new - f1_0_old)
                          / (f2_new - f2_old))%A in
  secant_loop (S n) i tol eta_max h f1_0_old f2_old f1_0_new =
  secant_loop n (S i) tol eta_max h f1_0_new f2_new next /\
  ((R_new - R_old)%A = (f2_new - f2_old)%A ->
   next = spec_secant_next f1_0_old R_old f1_0_new R_new) /\
  (ring_theory zero one fadd fmul fsub fneg eq ->
   next = spec_secant_next f1_0_old R_old f1_0_new R_new).
Proof.
  intros G C f2_new R_old R_new next.
  pose proof (run_pass tol eta_max h eta G n i (f1_0_old, f2_old, f1_0_new))
    as P.
  rewrite C in P. unfold run, shift in P. fold f2_new in P.
  split; [exact P|]. split.
  - intros E. unfold next, spec_secant_next. rewrite E. reflexivity.
  - intros exact. unfold next, R_new, R_old.
    apply (update_is_spec_secant_next exact).
Qed.

Lemma secant_update_as_computed_witness :
  exists eta,
    arange (A:=binary64) zero (default_eta_max + default_h)%A default_h
    = Return eta /\
    let f2_old := final_fp default_h eta 0.01%float in
    let f2_new := final_fp default_h eta 5.0%float in
    f2_old = 0.072486179944340132%float /\
    f2_new = 6.097770192048424%float /\
    secant_loop 100 0 default_tol default_eta_max default_h
      0.01%float f2_old 5.0%float
    = secant_loop 99 1 default_tol default_eta_max default_h
        5.0%float f2_new 0.77814536091245579%float /\
    spec_secant_next 0.01%float (residual f2_old) 5.0%float (residual f2_new)
    = 0.77814536091245579%float.
Proof.
  destruct (arange (A:=binary64) zero (default_eta_max + default_h)%A default_h)
    as [eta|e] eqn:G; [|vm_compute in G; discriminate G].
  pose proof (secant_update_as_computed float binary64 default_tol
                default_eta_max default_h eta 99 0 0.01%float
                (final_fp default_h eta 0.01%float) 5.0%float G) as T.
  assert (G' := G). vm_compute in G'. injection G' as <-.
  destruct T as (P & S & _); [vm_compute; reflexivity|].
  eexists. split; [reflexivity|]. cbv zeta.
  split; [vm_compute; reflexivity|]. split; [vm_compute; reflexivity|].
  split; [exact P|].
  rewrite <- S; vm_compute; reflexivity.
Defined.

(** C2, as the specification words it, fails in binary64: at the first pass
    of [secant_method((0.01, 0.02))] the update of the code gives
    0.16274615856703745 and the secant formula over residuals
    0.16274615856703747; the denominators are 0.060722562764063973 and
    0.060722562764063959. *)
Lemma secant_update_counterexample :
  exists eta,
    arange (A:=binary64) zero (default_eta_max + default_h)%A default_h
    = Return eta /\
    let st := initial_state default_h eta (0.01, 0.02)%float in
    let f2_old := final_fp default_h eta 0.01%float in
    let f2_new := final_fp default_h eta 0.02%float in
    converged default_tol default_h eta st = false /\
    (f2_new - f2_old)%A = 0.060722562764063973%float /\
    (residual f2_new - residual f2_old)%A = 0.060722562764063959%float /\
    guess (shift default_h eta st) = 0.16274615856703745%float /\
    spec_secant_next 0.01%float (residual f2_old) 0.02%float (residual f2_new)
    = 0.16274615856703747%float /\
    guess (shift default_h eta st)
    <> spec_secant_next 0.01%float (residual f2_old) 0.02%float
         (residual f2_new).
Proof.
  eexists. split; [vm_compute; reflexivity|]. cbv zeta.
  repeat split; try (vm_compute; reflexivity).
  intros E. apply (f_equal Prim2SF) in E. vm_compute in E. discriminate E.
Qed.

(** In binary64 the two denominators are not always the same number: the
    subtraction of 1 rounds. *)
Remark binary64_residual_difference_rounds :
  let f2_new := 1e-20%float in
  let f2_old := 2e-20%float in
  (residual f2_new - residual f2_old)%A = 0%float /\
  (f2_new - f2_old)%A = (-1e-20)%float.
Proof. split; vm_compute; reflexivity. Qed.

(** ** Failures of the shooting loop *)

(** [abs(x) < 0] is false for every double, NaN included ... *)
Lemma binary64_abs_not_negative (x : float) :
  (fabs x <? zero)%A = false.
Proof.
  change ((PrimFloat.abs x <? 0)%float = false).
  rewrite ltb_spec, abs_spec.
  destruct (Prim2SF x) as [s|s| |s m e]; reflexivity.
Qed.

(** ... and for every rational. *)
Lemma exactQ_abs_not_negative (x : Qc) :
  (fabs x <? zero)%A = false.
Proof.
  change (match Qccompare (Qcabs x) (Q2Qc 0) with Lt => true | _ => false end
          = false).
  destruct (Qccompare (Qcabs x) (Q2Qc 0)) eqn:E; try reflexivity.
  apply Qclt_alt in E. exfalso.
  exact (Qcle_not_lt _ _ (Qcabs_nonneg x) E).
Qed.

(** A double divided by zero is an infinity or a NaN. *)
Lemma binary64_division_by_zero (x : float) :
  Prim2SF (x / zero)%A = S754_nan \/
  exists s, Prim2SF (x / zero)%A = S754_infinity s.
Proof.
  change (Prim2SF (x / 0)%float = S754_nan \/
          exists s, Prim2SF (x / 0)%float = S754_infinity s).
  rewrite div_spec. unfold SF64div, SFdiv.
  destruct (Prim2SF x) as [s|s| |s m e]; simpl; eauto.
Qed.

Section Failures.

Context {F : Type} {A : Arith F}.
Local Open Scope arith_scope.
Variables tol eta_max h : F.
Variable eta : list F.
Hypothesis grid : arange zero (eta_max + h) h = Return eta.

(** Once the grid is built, the loop can only fail by running out. *)
Lemma run_raises (n i : nat) (st : shoot_state) (e : exn) :
  run n i tol eta_max h st = Raise e -> e = RuntimeError not_converged_msg.
Proof.
  destruct (run_cases tol eta_max h eta grid n i st)
    as [(k & _ & _ & _ & Hrun)|[_ Hrun]]; rewrite Hrun; congruence.
Qed.

(** With a test that never holds, every pass shifts. *)
Lemma never_converged (st : shoot_state) :
  (forall x, (fabs x <? zero) = false) ->
  converged zero h eta st = false.
Proof. intros Habs. unfold converged. apply Habs. Qed.

End Failures.

(** What [secant_method] raises when the grid cannot be built. *)
Lemma secant_method_no_grid (F : Type) (A : Arith F) (f1_0_guesses : F * F)
      (tol eta_max h : F) (e : exn) :
  arange zero (eta_max + h)%A h = Raise e ->
  secant_method f1_0_guesses tol eta_max h = Raise ArangeError.
Proof.
  intros G. destruct f1_0_guesses as [o x]. unfold secant_method.
  rewrite (runge_kutta_raises _ _ _ _ G).
  rewrite (arange_raises_ArangeError _ _ _ _ G). reflexivity.
Qed.

(** C3, as the code has it.  A pass that has not converged and whose two
    final [f'] values coincide raises nothing: the loop evaluates the secant
    update with the zero denominator and goes on with the result as next
    trial parameter; whatever follows, the only failure of the loop is the
    [RuntimeError] of a run out of passes. *)
Theorem degenerate_pass_goes_on (F : Type) (A : Arith F) (tol eta_max h : F)
        (eta : list F) (n i : nat) (f1_0_old f2_old f1_0_new : F) :
  arange zero (eta_max + h)%A h = Return eta ->
  converged tol h eta (f1_0_old, f2_old, f1_0_new) = false ->
  degenerate h eta (f1_0_old, f2_old, f1_0_new) ->
  let f2_new := final_fp h eta f1_0_new in
  secant_loop (S n) i tol eta_max h f1_0_old f2_old f1_0_new =
  secant_loop n (S i) tol eta_max h f1_0_new f2_new
    (f1_0_new - (f2_new - one) * (f1_0_new - f1_0_old) / zero)%A /\
  (forall e,
      secant_loop (S n) i tol eta_max h f1_0_old f2_old f1_0_new = Raise e ->
      e = RuntimeError not_converged_msg) /\
  ~ raises_distinct_error
      (secant_loop (S n) i tol eta_max h f1_0_old f2_old f1_0_new).
Proof.
  intros G C Z f2_new.
  pose proof (run_pass tol eta_max h eta G n i (f1_0_old, f2_old, f1_0_new))
    as P.
  rewrite C in P. unfold run, shift in P. fold f2_new in P.
  unfold degenerate in Z. fold f2_new in Z. rewrite Z in P.
  assert (R : forall e,
             secant_loop (S n) i tol eta_max h f1_0_old f2_old f1_0_new
             = Raise e -> e = RuntimeError not_converged_msg).
  { intros e. exact (run_raises tol eta_max h eta G (S n) i
                       (f1_0_old, f2_old, f1_0_new) e). }
  split; [exact P|]. split; [exact R|].
  intros (e & He & Hne & _). apply Hne. exact (R e He).
Qed.

Lemma degenerate_pass_goes_on_witness :
  secant_loop 100 0 default_tol 0%float default_h 0.01%float 0%float 5.0%float
  = secant_loop 99 1 default_tol 0%float default_h 5.0%float 0%float
      infinity.
Proof.
  assert (G : arange (A:=binary64) zero (0 + default_h)%float default_h
              = Return [0%float]) by (vm_compute; reflexivity).
  refine (proj1 (degenerate_pass_goes_on float binary64 default_tol 0%float
                   default_h [0%float] 99 0 0.01%float 0%float 5.0%float
                   G _ _)).
  - vm_compute. reflexivity.
  - vm_compute. reflexivity.
Defined.

(** C3, as the specification words it, fails: with the seed guesses 0.01
    and 5, [eta_max = 0] and the default tolerance and step, both seeds have
    the final [f'] 0 and the residual -1; the first pass divides by zero,
    passes infinity on as the next trial parameter, and the call ends in the
    [RuntimeError] of a run out of passes. *)
Lemma degenerate_pass_counterexample :
  let st := initial_state default_h [0%float] (0.01, 5.0)%float in
  arange (A:=binary64) zero (0 + default_h)%float default_h = Return [0%float] /\
  st = (0.01, 0, 5.0)%float /\
  (residual (final_fp default_h [0%float] 5.0%float) - residual 0%float)%A
  = 0%float /\
  degenerate default_h [0%float] st /\
  converged default_tol default_h [0%float] st = false /\
  guess (shift default_h [0%float] st) = infinity /\
  secant_method (0.01, 5.0)%float default_tol 0%float default_h
  = Raise (RuntimeError not_converged_msg) /\
  ~ raises_distinct_error
      (secant_method (0.01, 5.0)%float default_tol 0%float default_h).
Proof.
  cbv zeta.
  assert (R : secant_method (0.01, 5.0)%float default_tol 0%float default_h
              = Raise (RuntimeError not_converged_msg))
    by (vm_compute; reflexivity).
  repeat split; try (vm_compute; reflexivity).
  rewrite R. intros (e & He & Hne & _). congruence.
Qed.

(** C4, as the code has it.  [secant_method] fails with its [RuntimeError],
    whose only content is the message naming the limit of 100 iterations,
    exactly when the grid is built and none of the 100 passes has
    [|f'(eta_max) - 1| < tol]; it is the only failure of a call whose grid is
    built; and with the tolerance 0, which [abs(...) < 0] never meets, such a
    call always fails so. *)
Theorem nonconvergence (F : Type) (A : Arith F) (tol eta_max h : F)
        (f1_0_guesses : F * F) :
  (forall x : F, (fabs x <? zero)%A = false) ->
  (secant_method f1_0_guesses tol eta_max h
   = Raise (RuntimeError not_converged_msg) <->
   exists eta,
     arange zero (eta_max + h)%A h = Return eta /\
     forall j, j < 100 ->
       converged tol h eta
         (state_at h eta (initial_state h eta f1_0_guesses) j) = false) /\
  (forall eta, arange zero (eta_max + h)%A h = Return eta ->
     (forall e, secant_method f1_0_guesses tol eta_max h = Raise e ->
                e = RuntimeError not_converged_msg) /\
     secant_method f1_0_guesses zero eta_max h
     = Raise (RuntimeError not_converged_msg)).
Proof.
  intros Habs. split.
  - destruct (arange zero (eta_max + h)%A h) as [eta|e] eqn:G.
    + rewrite (secant_method_exhausts tol eta_max h eta G). split.
      * intros H. exists eta. auto.
      * intros (eta' & E & H). injection E as <-. exact H.
    + rewrite (secant_method_no_grid F A f1_0_guesses tol eta_max h e G).
      split; [discriminate|]. intros (eta & E & _). discriminate E.
  - intros eta G. split.
    + intros e. apply (secant_method_raises tol eta_max h eta G).
    + apply (secant_method_exhausts zero eta_max h eta G).
      intros j _. apply never_converged. exact Habs.
Qed.

Lemma nonconvergence_witness :
  secant_method (0.01, 5.0)%float 0%float default_eta_max default_h
  = Raise (RuntimeError not_converged_msg).
Proof.
  destruct (arange (A:=binary64) zero (default_eta_max + default_h)%A default_h)
    as [eta|e] eqn:G; [|vm_compute in G; discriminate G].
  exact (proj2 (proj2 (nonconvergence float binary64 default_tol
                         default_eta_max default_h (0.01, 5.0)%float
                         binary64_abs_not_negative) eta G)).
Defined.

(** C4, as the specification words it, fails: the exception does not carry
    the residual the run achieved.  The default call with tolerance 0 and
    the call with [eta_max = 0] fail with the same exception, the first
    after a last residual NaN, the second after a last residual -1. *)
Lemma nonconvergence_counterexample :
  secant_method (0.01, 5.0)%float 0%float default_eta_max default_h
  = Raise (RuntimeError not_converged_msg) /\
  secant_method (0.01, 5.0)%float default_tol 0%float default_h
  = Raise (RuntimeError not_converged_msg) /\
  achieved_residual (0.01, 5.0)%float default_eta_max default_h = nan /\
  achieved_residual (0.01, 5.0)%float 0%float default_h = (-1)%float /\
  ~ error_carries_residual (F:=float).
Proof.
  assert (R1 : secant_method (0.01, 5.0)%float 0%float default_eta_max default_h
               = Raise (RuntimeError not_converged_msg))
    by (vm_compute; reflexivity).
  assert (R2 : secant_method (0.01, 5.0)%float default_tol 0%float default_h
               = Raise (RuntimeError not_converged_msg))
    by (vm_compute; reflexivity).
  assert (A1 : achieved_residual (0.01, 5.0)%float default_eta_max default_h
               = nan) by (vm_compute; reflexivity).
  assert (A2 : achieved_residual (0.01, 5.0)%float 0%float default_h
               = (-1)%float) by (vm_compute; reflexivity).
  repeat split; try assumption.
  intros (residual_of & H).
  pose proof (H _ _ _ _ _ R1) as E1. pose proof (H _ _ _ _ _ R2) as E2.
  rewrite A1 in E1. rewrite A2 in E2. rewrite E1 in E2.
  apply (f_equal Prim2SF) in E2. vm_compute in E2. discriminate E2.
Qed.

(** ** The grid in exact arithmetic *)

Module ExactGrid.

Local Open Scope Q_scope.

(** The ceiling is the integer [z] with [z - 1 < x <= z]. *)
Lemma Qceiling_unique (x : Q) (z : Z) :
  inject_Z (z - 1) < x -> x <= inject_Z z -> Qceiling x = z.
Proof.
  intros L U.
  pose proof (Qle_ceiling x) as U'. pose proof (Qceiling_lt x) as L'.
  assert (H1 : inject_Z (z - 1) < inject_Z (Qceiling x)) by lra.
  assert (H2 : inject_Z (Qceiling x - 1) < inject_Z z) by lra.
  rewrite <- Zlt_Qlt in H1, H2. lia.
Qed.

Lemma Qceiling_succ (x : Q) : Qceiling (x + 1) = (Qceiling x + 1)%Z.
Proof.
  pose proof (Qle_ceiling x) as U. pose proof (Qceiling_lt x) as L.
  apply Qceiling_unique.
  - replace (Qceiling x + 1 - 1)%Z with (Qceiling x - 1 + 1)%Z by lia.
    rewrite inject_Z_plus. change (inject_Z 1) with 1%Q. lra.
  - rewrite inject_Z_plus. change (inject_Z 1) with 1%Q. lra.
Qed.

Lemma Qceiling_nonneg (x : Q) : -1 < x -> (0 <= Qceiling x)%Z.
Proof.
  intros L. pose proof (Qle_ceiling x) as U.
  assert (H : inject_Z (-1) < inject_Z (Qceiling x)) by (change (inject_Z (-1)) with (-1)%Q; lra).
  rewrite <- Zlt_Qlt in H. lia.
Qed.

Local Close Scope Q_scope.
Local Open Scope arith_scope.

(** [<] of the interface is the order of the rationals. *)
Lemma flt_Qclt (x y : Qc) : (x <? y) = true <-> Qclt x y.
Proof.
  change ((match Qccompare x y with Lt => true | _ => false end) = true
          <-> Qclt x y).
  rewrite Qclt_alt. destruct (Qccompare x y); split; congruence.
Qed.

Lemma feq_zero_false (h : Qc) : (zero <? h) = true -> (h =? zero) = false.
Proof.
  intros H. apply flt_Qclt in H.
  destruct (h =? zero) eqn:E; [|reflexivity].
  apply Qc_eq_bool_correct in E. subst h. exfalso.
  exact (Qclt_not_eq _ _ H eq_refl).
Qed.

Lemma of_int_succ (i : nat) :
  of_int (F:=Qc) (Z.of_nat (S i)) = of_int (Z.of_nat i) + one.
Proof.
  change (Q2Qc (inject_Z (Z.of_nat (S i)))
          = Qcplus (Q2Qc (inject_Z (Z.of_nat i))) (Q2Qc (inject_Z 1))).
  unfold Qcplus. apply Q2Qc_eq_iff. unfold Q2Qc. cbn [this].
  rewrite !Qred_correct, Nat2Z.inj_succ, <- Z.add_1_r, inject_Z_plus.
  reflexivity.
Qed.

Add Field Qc_exact_field : exactQ_field.

Lemma quotient_succ (eta_max h : Qc) :
  h <> zero -> (eta_max + h - zero) / h = eta_max / h + one.
Proof. intros H. field. exact H. Qed.

Lemma grid_point_zero (h : Qc) : zero + of_int 0 * h = zero.
Proof. change (of_int (F:=Qc) 0) with (zero (F:=Qc)). ring. Qed.

Lemma grid_point_succ (h : Qc) (i : nat) :
  (zero + of_int (Z.of_nat (S i)) * h) - (zero + of_int (Z.of_nat i) * h) = h.
Proof. rewrite of_int_succ. ring. Qed.

Lemma add_sub_cancel (a b : Qc) : a + (b - a) = b.
Proof. ring. Qed.

Lemma Qclt_add_pos (a h : Qc) : Qclt zero h -> Qclt a (a + h).
Proof.
  intros H. apply Qclt_minus_iff.
  replace (Qcplus (a + h) (Qcopp a)) with h; [exact H|].
  change (h = a + h + - a). ring.
Qed.

(** The quotient [eta_max / h] is above -1 when [eta_max] is above [- h]. *)
Lemma quotient_above_minus_one (eta_max h : Qc) :
  Qclt zero h -> Qclt (- h) eta_max -> (-1 < this (eta_max / h))%Q.
Proof.
  intros Hh Hm.
  assert (Hne : h <> zero) by (intros E; subst h; exact (Qclt_not_eq _ _ Hh eq_refl)).
  destruct (Qclt_le_dec (Q2Qc (-1)) (eta_max / h)) as [L|L]; [exact L|].
  exfalso. apply (Qcle_not_lt _ _ (Qcmult_le_compat_r _ _ h L (Qclt_le_weak _ _ Hh))).
  replace (Qcmult (eta_max / h) h) with eta_max
    by (change (eta_max = eta_max / h * h); field; exact Hne).
  replace (Qcmult (Q2Qc (-1)) h) with (- h)
    by (change (- h = - one * h); ring).
  exact Hm.
Qed.

(** The quotient [eta_max / h] is at most -1 when [eta_max] is at most
    [- h]. *)
Lemma quotient_at_most_minus_one (eta_max h : Qc) :
  Qclt zero h -> ~ Qclt (- h) eta_max -> ~ (-1 < this (eta_max / h))%Q.
Proof.
  intros Hh Hm L.
  assert (Hne : h <> zero) by (intros E; subst h; exact (Qclt_not_eq _ _ Hh eq_refl)).
  assert (L' : Qclt (Q2Qc (-1)) (eta_max / h)) by exact L.
  pose proof (Qcmult_lt_compat_r _ _ h Hh L') as M.
  replace (Qcmult (eta_max / h) h) with eta_max in M
    by (change (eta_max = eta_max / h * h); field; exact Hne).
  replace (Qcmult (Q2Qc (-1)) h) with (- h) in M
    by (change (- h = - one * h); ring).
  exact (Hm M).
Qed.

End ExactGrid.

Lemma nth_error_map_seq (B : Type) (g : nat -> B) (n i s : nat) :
  nth_error (map g (seq s n)) i
  = if (i <? n)%nat then Some (g (s + i)%nat) else None.
Proof.
  revert i s. induction n as [|n IH]; intros i s.
  - destruct i; reflexivity.
  - destruct i as [|i]; simpl.
    + rewrite Nat.add_0_r. reflexivity.
    + rewrite IH. change (S i <? S n)%nat with (i <? n)%nat.
      rewrite Nat.add_succ_r. reflexivity.
Qed.

(** The grid [arange] builds in exact arithmetic. *)
Lemma arange_exact (eta_max h : Qc) :
  (zero <? h)%A = true -> (- h <? eta_max)%A = true ->
  let c := Qceiling (eta_max / h)%A in
  (0 <= c)%Z /\
  fceil (eta_max / h)%A = Some c /\
  arange zero (eta_max + h)%A h =
  Return (map (fun i => zero + of_int (Z.of_nat i) * h)%A
              (seq 0 (Z.to_nat (c + 1)))).
Proof.
  intros Hh Hm c.
  pose proof (proj1 (ExactGrid.flt_Qclt _ _) Hh) as Hh'.
  pose proof (proj1 (ExactGrid.flt_Qclt _ _) Hm) as Hm'.
  assert (Hne : h <> zero)
    by (intros E; subst h; exact (Qclt_not_eq _ _ Hh' eq_refl)).
  split; [|split; [reflexivity|]].
  - apply ExactGrid.Qceiling_nonneg.
    apply ExactGrid.quotient_above_minus_one; assumption.
  - unfold arange. rewrite (ExactGrid.feq_zero_false h Hh).
    rewrite (ExactGrid.quotient_succ eta_max h Hne).
    change (fceil (eta_max / h + one)%A)
      with (Some (Qceiling (this (Qcplus (eta_max / h)%A (Q2Qc 1))))).
    assert (E : Qceiling (this (Qcplus (eta_max / h)%A (Q2Qc 1)))
                = (c + 1)%Z).
    { unfold c. rewrite <- ExactGrid.Qceiling_succ. apply Qceiling_comp.
      unfold Qcplus, Q2Qc. cbn [this]. rewrite !Qred_correct. reflexivity. }
    rewrite E. reflexivity.
Qed.

(** In exact arithmetic, for a step [h > 0] and a domain bound
    [eta_max > - h], the grid of an integration starts at 0, is strictly
    increasing with the spacing [h] between consecutive points, and has
    [ceil(eta_max / h) + 1] points. *)
Lemma grid_exact (f1_0 eta_max h : Qc) :
  (zero <? h)%A = true -> (- h <? eta_max)%A = true ->
  exists f fp fpp eta,
    runge_kutta_4th_order f1_0 eta_max h = Return (f, fp, fpp, eta) /\
    grid_property eta_max h eta.
Proof.
  intros Hh Hm.
  destruct (arange_exact eta_max h Hh Hm) as (Hc & Hceil & G).
  set (c := Qceiling (eta_max / h)%A) in *.
  set (g := (fun i => zero + of_int (Z.of_nat i) * h)%A) in *.
  set (n := Z.to_nat (c + 1)) in *.
  rewrite (runge_kutta_returns f1_0 eta_max h _ G).
  destruct (integrate f1_0 h (map g (seq 0 n))) as [[f fp] fpp].
  exists f, fp, fpp, (map g (seq 0 n)). split; [reflexivity|].
  assert (Hn : (1 <= n)%nat) by (unfold n; lia).
  assert (Hnth : forall i a, nth_error (map g (seq 0 n)) i = Some a ->
                             a = g i).
  { intros i a. rewrite nth_error_map_seq.
    destruct (i <? n)%nat; [|discriminate]. simpl. congruence. }
  repeat split.
  - unfold starts_at_zero. rewrite nth_error_map_seq.
    destruct (Nat.ltb_spec 0 n) as [_|L]; [|lia].
    cbn [Nat.add]. unfold g. change (Z.of_nat 0) with 0%Z.
    rewrite ExactGrid.grid_point_zero. reflexivity.
  - intros i a b Ha Hb. apply Hnth in Ha, Hb. subst a b.
    apply ExactGrid.flt_Qclt.
    replace (g (S i)) with (g i + h)%A.
    + apply ExactGrid.Qclt_add_pos. apply ExactGrid.flt_Qclt. exact Hh.
    + rewrite <- (ExactGrid.add_sub_cancel (g i) (g (S i))).
      f_equal. symmetry. apply ExactGrid.grid_point_succ.
  - intros i a b Ha Hb. apply Hnth in Ha, Hb. subst a b.
    apply ExactGrid.grid_point_succ.
  - exists c. split; [exact Hceil|].
    rewrite length_map, length_seq. unfold n. lia.
Qed.

(** In exact arithmetic, for a step [h > 0] and a domain bound
    [eta_max <= - h], [arange] builds no point. *)
Lemma arange_exact_empty (eta_max h : Qc) :
  (zero <? h)%A = true -> (- h <? eta_max)%A = false ->
  arange zero (eta_max + h)%A h = Return [].
Proof.
  intros Hh Hm.
  pose proof (proj1 (ExactGrid.flt_Qclt _ _) Hh) as Hh'.
  assert (Hne : h <> zero)
    by (intros E; subst h; exact (Qclt_not_eq _ _ Hh' eq_refl)).
  assert (Hq : ~ (-1 < this (eta_max / h)%A)%Q).
  { apply ExactGrid.quotient_at_most_minus_one; [exact Hh'|].
    intros M. apply (proj2 (ExactGrid.flt_Qclt _ _)) in M.
    change ((- h <? eta_max)%A = true) in M. congruence. }
  unfold arange. rewrite (ExactGrid.feq_zero_false h Hh).
  rewrite (ExactGrid.quotient_succ eta_max h Hne).
  change (fceil (eta_max / h + one)%A)
    with (Some (Qceiling (this (Qcplus (eta_max / h)%A (Q2Qc 1))))).
  assert (E : Qceiling (this (Qcplus (eta_max / h)%A (Q2Qc 1)))
              = (Qceiling (eta_max / h)%A + 1)%Z).
  { rewrite <- ExactGrid.Qceiling_succ. apply Qceiling_comp.
    unfold Qcplus, Q2Qc. cbn [this]. rewrite !Qred_correct. reflexivity. }
  rewrite E.
  assert (C : (Qceiling (eta_max / h)%A <= -1)%Z).
  { change (-1)%Z with (Qceiling (inject_Z (-1))).
    apply Qceiling_resp_le. change (inject_Z (-1)) with (-1)%Q.
    apply Qnot_lt_le. exact Hq. }
  replace (Z.to_nat (Qceiling (eta_max / h)%A + 1)) with 0%nat by lia.
  reflexivity.
Qed.

(** What [arange] returns: the count is the ceiling of the quotient as
    computed, the points are [start + i * step] as computed. *)
Lemma arange_built (F : Type) (A : Arith F) (start stop step : F)
      (eta : list F) :
  arange start stop step = Return eta ->
  exists len,
    fceil ((stop - start) / step)%A = Some len /\
    eta = map (fun i => start + of_int (Z.of_nat i) * step)%A
              (seq 0 (Z.to_nat len)).
Proof.
  unfold arange. destruct (step =? zero)%A; [discriminate|].
  destruct (fceil _) as [len|]; [|discriminate].
  intros E. injection E as <-. exists len. split; reflexivity.
Qed.

(** In binary64 the first point of a grid with a step [h > 0] is [+0.0]. *)
Lemma b64_first_point (eta_max h : float) (eta : list float) :
  (0 <? h)%float = true ->
  arange (A:=binary64) zero (eta_max + h)%float h = Return eta ->
  (zero + of_int 0 * h)%A = 0%float.
Proof.
  intros Hpos G.
  destruct (b64_positive_finite eta_max h eta Hpos G) as (m & e & Eh).
  apply Prim2SF_inj.
  change ((zero + of_int 0 * h)%A) with (0 + 0 * h)%float.
  rewrite add_spec, mul_spec, Eh. reflexivity.
Qed.

Lemma strictly_increasing_one (F : Type) (A : Arith F) (a : F) :
  strictly_increasing [a].
Proof. intros [|[|i]] x y Hx Hy; discriminate Hy. Qed.

Lemma strictly_increasing_cons (F : Type) (A : Arith F) (a b : F)
      (l : list F) :
  (a <? b)%A = true -> strictly_increasing (b :: l) ->
  strictly_increasing (a :: b :: l).
Proof.
  intros H S [|i] x y Hx Hy.
  - simpl in Hx, Hy. injection Hx as <-. injection Hy as <-. exact H.
  - exact (S i x y Hx Hy).
Qed.




(** In binary64 the count [ceil((eta_max + h) / h)] is taken on rounded
    numbers: for [eta_max = 0.2] and [h = 0.1] the grid has four points, one
    beyond [eta_max], where [ceil(eta_max / h) + 1] is 3. *)
Remark binary64_grid_overshoot :
  arange (A:=binary64) zero (0.2 + 0.1)%float 0.1%float
  = Return [0; 0.1; 0.2; 0.30000000000000004]%float /\
  fceil (0.2 / 0.1)%float = Some 2%Z.
Proof. split; vm_compute; reflexivity. Qed.

(** ** The notebook's run and the failures of a call *)

(** The call of the notebook, [secant_method([0.01, 5.0])], returns at pass 7
    with [f''(0) = 0.33205920313754467], within [1e-3] of the Blasius
    constant 0.332, a final [f'] within [1e-7] of 1, 81 grid points, and a
    non-decreasing [fp]. *)
Theorem notebook_run_converges :
  exists f fp fpp,
    secant_method (0.01, 5.0)%float default_tol default_eta_max default_h
    = Return (f, fp, fpp, 1.000000004777214%float, 7) /\
    nth_error fpp 0 = Some 0.33205920313754467%float /\
    (fabs (0.33205920313754467 - 0.332) <? 1e-3)%float = true /\
    (fabs (1.000000004777214 - 1) <? default_tol)%float = true /\
    length f = 81%nat /\
    nondecreasing fp = true.
Proof.
  do 3 eexists. split; [vm_compute; reflexivity|].
  repeat split; vm_compute; reflexivity.
Qed.

(** A call fails in one of two ways: [arange] cannot build the grid, or the
    grid is built and the loop runs out of passes. *)
Theorem secant_method_failures (F : Type) (A : Arith F)
        (f1_0_guesses : F * F) (tol eta_max h : F) (e : exn) :
  secant_method f1_0_guesses tol eta_max h = Raise e ->
  (e = ArangeError /\ arange zero (eta_max + h)%A h = Raise ArangeError) \/
  (e = RuntimeError not_converged_msg /\
   exists eta, arange zero (eta_max + h)%A h = Return eta).
Proof.
  intros H. destruct (arange zero (eta_max + h)%A h) as [eta|e'] eqn:G.
  - right. split; [|eauto].
    exact (secant_method_raises tol eta_max h eta G f1_0_guesses e H).
  - left. rewrite (secant_method_no_grid F A f1_0_guesses tol eta_max h e' G)
      in H.
    rewrite (arange_raises_ArangeError _ _ _ _ G). split; congruence.
Qed.

Lemma secant_method_failures_witness :
  arange (A:=binary64) zero (default_eta_max + 0)%float 0%float
  = Raise ArangeError.
Proof.
  destruct (secant_method_failures float binary64 (0.01, 5.0)%float
              default_tol default_eta_max 0%float ArangeError)
    as [[_ G]|[D _]].
  - vm_compute. reflexivity.
  - exact G.
  - discriminate D.
Defined.

(** In exact arithmetic the integrator returns for every step other than 0,
    whatever the trial parameter and the domain bound, and fails for the
    step 0. *)
Theorem exact_integrator_defined (f1_0 eta_max h : Qc) :
  (h = zero ->
   runge_kutta_4th_order f1_0 eta_max h = Raise ArangeError) /\
  (h <> zero ->
   exists f fp fpp eta,
     runge_kutta_4th_order f1_0 eta_max h = Return (f, fp, fpp, eta)).
Proof.
  split; intros H.
  - subst h. reflexivity.
  - rewrite runge_kutta_integrate. unfold arange.
    destruct (feq h zero) eqn:E.
    + apply Qc_eq_bool_correct in E. contradiction.
    + change (fceil ((eta_max + h - zero) / h)%A)
        with (Some (Qceiling ((eta_max + h - zero) / h)%A)).
      cbn [bind].
      destruct (integrate f1_0 h _) as [[f fp] fpp]. eauto.
Qed.

(** ** What a returned solution is, and how runs compose *)

Section MoreShooting.

Context {F : Type} {A : Arith F}.
Local Open Scope arith_scope.
Variables eta_max h : F.
Variable eta : list F.
Hypothesis grid : arange zero (eta_max + h) h = Return eta.

(** The stored [f2_old] is always the final [f'] of the stored old guess. *)
Lemma state_at_f2_old (g : F * F) (k : nat) :
  let st := state_at h eta (initial_state h eta g) k in
  snd (fst st) = final_fp h eta (fst (fst st)).
Proof.
  destruct k as [|k]; [reflexivity|].
  simpl. destruct (state_at h eta (initial_state h eta g) k) as [[o f2o] x].
  reflexivity.
Qed.

Lemma state_at_restart (g : F * F) (k : nat) :
  let st := state_at h eta (initial_state h eta g) k in
  initial_state h eta (fst (fst st), guess st) = st.
Proof.
  intros st. pose proof (state_at_f2_old g k) as E. fold st in E.
  destruct st as [[o f2o] x]. unfold initial_state, guess. simpl in *.
  rewrite <- E. reflexivity.
Qed.

Lemma state_at_add (st : shoot_state) (k j : nat) :
  state_at h eta (state_at h eta st k) j = state_at h eta st (k + j).
Proof.
  induction j as [|j IH]; [rewrite Nat.add_0_r; reflexivity|].
  rewrite Nat.add_succ_r. simpl. rewrite IH. reflexivity.
Qed.

(** What a returned value says about the run. *)
Lemma secant_method_return_inv (tol : F) (g : F * F) (s : solution) :
  secant_method g tol eta_max h = Return s ->
  exists i, i < 100 /\
    (forall j, j < i ->
       converged tol h eta (state_at h eta (initial_state h eta g) j) = false) /\
    converged tol h eta (state_at h eta (initial_state h eta g) i) = true /\
    s = answer h eta (state_at h eta (initial_state h eta g) i) i.
Proof.
  rewrite (secant_method_run tol eta_max h eta grid).
  destruct (run_cases tol eta_max h eta grid 100 0 (initial_state h eta g))
    as [(k & Hk & Hb & Ha & Hrun)|[_ Hrun]]; rewrite Hrun; [|discriminate].
  intros E. injection E as <-. exists k. auto.
Qed.

End MoreShooting.

Lemma secant_method_return_grid (F : Type) (A : Arith F) (g : F * F)
      (tol eta_max h : F) (s : solution) :
  secant_method g tol eta_max h = Return s ->
  exists eta, arange zero (eta_max + h)%A h = Return eta.
Proof.
  intros H. destruct (arange zero (eta_max + h)%A h) as [eta|e] eqn:G; [eauto|].
  rewrite (secant_method_no_grid F A g tol eta_max h e G) in H. discriminate H.
Qed.

(** Whatever [secant_method] returns is the trajectory of the trial
    parameter [fpp[0]], whose final [f'] is the value returned with it and
    is within the tolerance of 1; the count is below 100 and no earlier pass
    was within the tolerance. *)
Theorem secant_method_sound (F : Type) (A : Arith F) (g : F * F)
        (tol eta_max h : F) (f fp fpp : list F) (r : F) (i : nat) :
  secant_method g tol eta_max h = Return (f, fp, fpp, r, i) ->
  i < 100 /\ r = lst fp /\ (fabs (r - one) <? tol)%A = true /\
  exists eta x,
    nth_error fpp 0 = Some x /\
    runge_kutta_4th_order x eta_max h = Return (f, fp, fpp, eta) /\
    x = guess (state_at h eta (initial_state h eta g) i) /\
    forall j, j < i ->
      converged tol h eta (state_at h eta (initial_state h eta g) j) = false.
Proof.
  intros H. destruct (secant_method_return_grid F A g tol eta_max h _ H)
    as [eta G].
  destruct (secant_method_return_inv eta_max h eta G tol g _ H)
    as (k & Hk & Hb & Ha & E).
  unfold answer in E. unfold converged, final_fp in Ha.
  set (x := guess (state_at h eta (initial_state h eta g) k)) in *.
  destruct (integrate x h eta) as [[f0 fp0] fpp0] eqn:I.
  injection E as -> -> -> -> ->. simpl in Ha.
  repeat split; try assumption.
  exists eta, x. repeat split; try assumption.
  - unfold integrate in I. apply rk4_loop_prefix in I.
    destruct I as (_ & _ & xfpp & _ & _ & ->). reflexivity.
  - rewrite (runge_kutta_returns x eta_max h eta G), I. reflexivity.
Qed.

Lemma secant_method_sound_witness :
  exists f fp fpp r i,
    secant_method (0.01, 5.0)%float default_tol default_eta_max default_h
    = Return (f, fp, fpp, r, i) /\
    i < 100 /\ r = lst fp /\ (fabs (r - one) <? default_tol)%A = true.
Proof.
  destruct (secant_method (0.01, 5.0)%float default_tol default_eta_max
              default_h) as [[[[[f fp] fpp] r] i]|e] eqn:E;
    [|vm_compute in E; discriminate E].
  exists f, fp, fpp, r, i. split; [reflexivity|].
  destruct (secant_method_sound float binary64 _ _ _ _ f fp fpp r i E)
    as (H1 & H2 & H3 & _). auto.
Defined.

(** Re-seeding with the two guesses a run holds at a pass [k] it reaches
    continues the same run: the restarted call returns the same trajectory
    and final [f'], with the count [i - k]. *)
Theorem secant_restart (F : Type) (A : Arith F) (g : F * F)
        (tol eta_max h : F) (eta : list F) (f fp fpp : list F) (r : F)
        (i k : nat) :
  arange zero (eta_max + h)%A h = Return eta ->
  secant_method g tol eta_max h = Return (f, fp, fpp, r, i) ->
  k <= i ->
  let st := state_at h eta (initial_state h eta g) k in
  secant_method (fst (fst st), guess st) tol eta_max h
  = Return (f, fp, fpp, r, i - k).
Proof.
  intros G H Hk st.
  destruct (secant_method_return_inv eta_max h eta G tol g _ H)
    as (i' & Hi & Hb & Ha & E).
  assert (Ei : i' = i).
  { unfold answer in E. destruct (integrate _ h eta) as [[? ?] ?].
    injection E. auto. }
  subst i'.
  assert (S : forall j, state_at h eta
                (initial_state h eta (fst (fst st), guess st)) j
              = state_at h eta (initial_state h eta g) (k + j)).
  { intros j. unfold st. rewrite (state_at_restart h eta g k).
    apply state_at_add. }
  rewrite (secant_method_converges tol eta_max h eta G _ (i - k)).
  - rewrite S. replace (k + (i - k)) with i by lia.
    unfold answer in *. destruct (integrate _ h eta) as [[f0 fp0] fpp0].
    injection E as -> -> -> ->. reflexivity.
  - lia.
  - intros j Hj. rewrite S. apply Hb. lia.
  - rewrite S. replace (k + (i - k)) with i by lia. exact Ha.
Qed.

Lemma secant_restart_witness :
  exists f fp fpp r,
    secant_method (0.01, 5.0)%float default_tol default_eta_max default_h
    = Return (f, fp, fpp, r, 7) /\
    secant_method (0.41368485238992958, 0.35086596601530545)%float
      default_tol default_eta_max default_h
    = Return (f, fp, fpp, r, 3).
Proof.
  destruct (arange (A:=binary64) zero (default_eta_max + default_h)%A default_h)
    as [eta|e] eqn:G; [|vm_compute in G; discriminate G].
  assert (G' := G). vm_compute in G'. injection G' as <-.
  destruct (secant_method (0.01, 5.0)%float default_tol default_eta_max
              default_h) as [[[[[f fp] fpp] r] i]|e] eqn:E;
    [|vm_compute in E; discriminate E].
  assert (Ei : i = 7).
  { vm_compute in E. injection E as _ _ _ _ <-. reflexivity. }
  subst i. exists f, fp, fpp, r. split; [reflexivity|].
  exact (secant_restart float binary64 (0.01, 5.0)%float default_tol
           default_eta_max default_h _ f fp fpp r 7 4 G E
           (le_S _ _ (le_S _ _ (le_S _ _ (le_n 4))))).
Defined.

(** A tolerance that accepts whatever [tol] accepts makes the call return
    as well, at the same pass or an earlier one. *)
Theorem looser_tolerance_returns (F : Type) (A : Arith F) (g : F * F)
        (tol tol' eta_max h : F) (f fp fpp : list F) (r : F) (i : nat) :
  (forall x : F, (x <? tol)%A = true -> (x <? tol')%A = true) ->
  secant_method g tol eta_max h = Return (f, fp, fpp, r, i) ->
  exists f' fp' fpp' r' i',
    i' <= i /\
    secant_method g tol' eta_max h = Return (f', fp', fpp', r', i') /\
    (i' = i -> (f', fp', fpp', r') = (f, fp, fpp, r)).
Proof.
  intros M H.
  destruct (secant_method_return_grid F A g tol eta_max h _ H) as [eta G].
  destruct (secant_method_return_inv eta_max h eta G tol g _ H)
    as (i0 & Hi & Hb & Ha & E).
  assert (Ei : i0 = i).
  { unfold answer in E. destruct (integrate _ h eta) as [[? ?] ?].
    injection E. auto. }
  subst i0. apply M in Ha. fold (converged tol' h eta
    (state_at h eta (initial_state h eta g) i)) in Ha.
  rewrite (secant_method_run tol' eta_max h eta G).
  destruct (run_cases tol' eta_max h eta G 100 0 (initial_state h eta g))
    as [(k & Hk & Hb' & Ha' & Hrun)|[Hall _]].
  - assert (Hki : k <= i).
    { destruct (Nat.le_gt_cases k i) as [L|L]; [exact L|].
      rewrite (Hb' i L) in Ha. discriminate Ha. }
    rewrite Hrun. simpl. unfold answer in *.
    destruct (integrate (guess (state_at h eta (initial_state h eta g) k))
                h eta) as [[f' fp'] fpp'] eqn:I.
    exists f', fp', fpp', (lst fp'), k. repeat split; [exact Hki|].
    intros ->. rewrite I in E. injection E as -> -> -> ->. reflexivity.
  - rewrite (Hall i Hi) in Ha. discriminate Ha.
Qed.

Lemma exactQ_flt_trans (x tol tol' : Qc) :
  (tol <? tol')%A = true -> (x <? tol)%A = true -> (x <? tol')%A = true.
Proof.
  rewrite !ExactGrid.flt_Qclt. intros H1 H2. exact (Qclt_trans _ _ _ H2 H1).
Qed.

Lemma looser_tolerance_returns_witness :
  let g : Qc * Qc := (of_int 1, of_int 2) in
  exists f fp fpp r f' fp' fpp' r',
    secant_method g (Q2Qc (1 # 1000)) half half = Return (f, fp, fpp, r, 1) /\
    secant_method g (Q2Qc (1 # 100)) half half = Return (f', fp', fpp', r', 0).
Proof.
  intros g.
  destruct (secant_method g (Q2Qc (1 # 1000)) half half)
    as [[[[[f fp] fpp] r] i]|e] eqn:E; [|vm_compute in E; discriminate E].
  assert (Ei : i = 1).
  { vm_compute in E. injection E as _ _ _ _ <-. reflexivity. }
  subst i.
  destruct (looser_tolerance_returns Qc exactQ g (Q2Qc (1 # 1000))
              (Q2Qc (1 # 100)) half half f fp fpp r 1
              (fun x => exactQ_flt_trans x (Q2Qc (1 # 1000)) (Q2Qc (1 # 100))
                          eq_refl) E)
    as (f' & fp' & fpp' & r' & i' & Hi & E' & _).
  assert (Ei : i' = 0).
  { vm_compute in E'. injection E' as _ _ _ _ <-. reflexivity. }
  subst i'. exists f, fp, fpp, r, f', fp', fpp', r'. split; [reflexivity|exact E'].
Defined.

Section ShortGrid.

Context {F : Type} {A : Arith F}.
Local Open Scope arith_scope.

Lemma integrate_short (f1_0 h : F) (eta : list F) :
  length eta <= 1 -> integrate f1_0 h eta = ([zero], [zero], [f1_0]).
Proof.
  intros L. unfold integrate.
  replace (length eta - 1)%nat with 0 by lia. reflexivity.
Qed.

Lemma converged_short (tol h : F) (eta : list F) (st : shoot_state) :
  length eta <= 1 ->
  converged tol h eta st = (fabs (zero - one) <? tol).
Proof.
  intros L. unfold converged, final_fp. rewrite (integrate_short _ h eta L).
  reflexivity.
Qed.

End ShortGrid.

(** On a grid of at most one point no step is integrated and the final
    [f'] is the initial 0 for every trial parameter: the call returns the
    initial condition of the second seed at pass 0 when [|0 - 1| < tol], and
    otherwise runs out of passes. *)
Theorem single_point_grid (F : Type) (A : Arith F) (tol eta_max h : F)
        (eta : list F) (f1_0_old f1_0_new : F) :
  arange zero (eta_max + h)%A h = Return eta ->
  length eta <= 1 ->
  secant_method (f1_0_old, f1_0_new) tol eta_max h =
  if (fabs (zero - one) <? tol)%A
  then Return ([zero], [zero], [f1_0_new], zero, 0)
  else Raise (RuntimeError not_converged_msg).
Proof.
  intros G L. destruct (fabs (zero - one) <? tol)%A eqn:C.
  - rewrite (secant_method_converges tol eta_max h eta G _ 0).
    + unfold answer, initial_state, guess. cbn [state_at snd].
      rewrite (integrate_short f1_0_new h eta L). reflexivity.
    + lia.
    + intros j Hj. lia.
    + rewrite (converged_short tol h eta _ L). exact C.
  - apply (secant_method_exhausts tol eta_max h eta G).
    intros j _. rewrite (converged_short tol h eta _ L). exact C.
Qed.

Lemma single_point_grid_witness :
  secant_method (0.01, 5.0)%float default_tol 0%float default_h
  = Raise (RuntimeError not_converged_msg) /\
  secant_method (0.01, 5.0)%float 1.5%float 0%float default_h
  = Return ([0%float], [0%float], [5.0%float], 0%float, 0).
Proof.
  assert (G : arange (A:=binary64) zero (0 + default_h)%float default_h
              = Return [0%float]) by (vm_compute; reflexivity).
  split.
  - exact (single_point_grid float binary64 default_tol 0%float default_h
             [0%float] 0.01%float 5.0%float G (le_n 1)).
  - exact (single_point_grid float binary64 1.5%float 0%float default_h
             [0%float] 0.01%float 5.0%float G (le_n 1)).
Defined.

Section Extension.

Context {F : Type} {A : Arith F}.
Local Open Scope arith_scope.

Lemma rk4_loop_add (n m : nat) (h : F) (st : lists) :
  rk4_loop (n + m) h st = rk4_loop m h (rk4_loop n h st).
Proof.
  revert st. induction n as [|n IH]; intros st; [reflexivity|].
  simpl. apply IH.
Qed.

Lemma arange_inv (start stop step : F) (eta : list F) :
  arange start stop step = Return eta ->
  eta = map (fun i => start + of_int (Z.of_nat i) * step)
            (seq 0 (length eta)).
Proof.
  unfold arange. destruct (step =? zero); [discriminate|].
  destruct (fceil _) as [len|]; [|discriminate].
  intros E. injection E as <-. rewrite length_map, length_seq. reflexivity.
Qed.

End Extension.

(** A larger domain bound with the same step extends the trajectory: the
    grid and the three sequences of the shorter integration are the first
    entries of those of the longer one. *)
Theorem trajectory_extends (F : Type) (A : Arith F)
        (f1_0 eta_max eta_max' h : F)
        (f fp fpp eta f' fp' fpp' eta' : list F) :
  runge_kutta_4th_order f1_0 eta_max h = Return (f, fp, fpp, eta) ->
  runge_kutta_4th_order f1_0 eta_max' h = Return (f', fp', fpp', eta') ->
  length eta <= length eta' ->
  exists xf xfp xfpp xeta,
    f' = f ++ xf /\ fp' = fp ++ xfp /\ fpp' = fpp ++ xfpp /\
    eta' = eta ++ xeta.
Proof.
  intros R R' L.
  apply runge_kutta_inv in R, R'. destruct R as [G I], R' as [G' I'].
  unfold integrate in I, I'.
  replace (length eta' - 1)
    with ((length eta - 1) + ((length eta' - 1) - (length eta - 1)))
    in I' by lia.
  rewrite rk4_loop_add, I in I'. apply rk4_loop_prefix in I'.
  destruct I' as (xf & xfp & xfpp & -> & -> & ->).
  exists xf, xfp, xfpp.
  exists (map (fun i => zero + of_int (Z.of_nat i) * h)%A
              (seq (length eta) (length eta' - length eta))).
  repeat split.
  rewrite (arange_inv _ _ _ _ G') at 1. rewrite (arange_inv _ _ _ _ G) at 1.
  rewrite <- map_app, <- seq_app. f_equal. f_equal. lia.
Qed.

Lemma trajectory_extends_witness :
  exists f fp fpp eta f' fp' fpp' eta',
    runge_kutta_4th_order 0.332%float 1%float 0.5%float
    = Return (f, fp, fpp, eta) /\
    runge_kutta_4th_order 0.332%float 2%float 0.5%float
    = Return (f', fp', fpp', eta') /\
    length eta = 3 /\ length eta' = 5 /\
    exists xf xfp xfpp xeta,
      f' = f ++ xf /\ fp' = fp ++ xfp /\ fpp' = fpp ++ xfpp /\
      eta' = eta ++ xeta.
Proof.
  destruct (runge_kutta_4th_order 0.332%float 1%float 0.5%float)
    as [[[[f fp] fpp] eta]|e] eqn:E; [|vm_compute in E; discriminate E].
  destruct (runge_kutta_4th_order 0.332%float 2%float 0.5%float)
    as [[[[f' fp'] fpp'] eta']|e] eqn:E'; [|vm_compute in E'; discriminate E'].
  assert (L : length eta = 3).
  { vm_compute in E. injection E as _ _ _ <-. reflexivity. }
  assert (L' : length eta' = 5).
  { vm_compute in E'. injection E' as _ _ _ <-. reflexivity. }
  exists f, fp, fpp, eta, f', fp', fpp', eta'.
  repeat split; try assumption.
  apply (trajectory_extends float binary64 _ _ _ _ _ _ _ _ _ _ _ _ E E').
  rewrite L, L'. lia.
Defined.

(** ** Non-finite numbers in binary64 *)


Module B64Facts.

Local Open Scope arith_scope.

Lemma of_SF_nan (x : float) : Prim2SF x = S754_nan -> x = nan.
Proof. intros H. apply Prim2SF_inj. rewrite H. reflexivity. Qed.

Lemma of_SF_infinity (x : float) (s : bool) :
  Prim2SF x = S754_infinity s -> x = infinity \/ x = neg_infinity.
Proof.
  intros H. destruct s; [right|left]; apply Prim2SF_inj; rewrite H;
    reflexivity.
Qed.

Lemma nonfinite_SF (x : float) :
  nonfinite x <->
  Prim2SF x = S754_nan \/ exists s, Prim2SF x = S754_infinity s.
Proof.
  split.
  - intros [->|[->| ->]]; [left|right; exists false|right; exists true];
      reflexivity.
  - intros [H|[s H]]; [left; exact (of_SF_nan x H)|right].
    exact (of_SF_infinity x s H).
Qed.

Lemma add_nan_l (x : float) : nan + x = nan.
Proof.
  apply of_SF_nan. change (Prim2SF (nan + x)%float = S754_nan).
  rewrite add_spec. reflexivity.
Qed.

Lemma add_nan_r (x : float) : x + nan = nan.
Proof.
  apply of_SF_nan. change (Prim2SF (x + nan)%float = S754_nan).
  rewrite add_spec. change (Prim2SF nan) with S754_nan.
  destruct (Prim2SF x); reflexivity.
Qed.

Lemma sub_nan_l (x : float) : nan - x = nan.
Proof.
  apply of_SF_nan. change (Prim2SF (nan - x)%float = S754_nan).
  rewrite sub_spec. reflexivity.
Qed.

Lemma sub_nan_r (x : float) : x - nan = nan.
Proof.
  apply of_SF_nan. change (Prim2SF (x - nan)%float = S754_nan).
  rewrite sub_spec. change (Prim2SF nan) with S754_nan.
  destruct (Prim2SF x); reflexivity.
Qed.

Lemma mul_nan_l (x : float) : nan * x = nan.
Proof.
  apply of_SF_nan. change (Prim2SF (nan * x)%float = S754_nan).
  rewrite mul_spec. reflexivity.
Qed.

Lemma mul_nan_r (x : float) : x * nan = nan.
Proof.
  apply of_SF_nan. change (Prim2SF (x * nan)%float = S754_nan).
  rewrite mul_spec. change (Prim2SF nan) with S754_nan.
  destruct (Prim2SF x); reflexivity.
Qed.

Lemma div_nan_l (x : float) : nan / x = nan.
Proof.
  apply of_SF_nan. change (Prim2SF (nan / x)%float = S754_nan).
  rewrite div_spec. reflexivity.
Qed.

Lemma div_nan_r (x : float) : x / nan = nan.
Proof.
  apply of_SF_nan. change (Prim2SF (x / nan)%float = S754_nan).
  rewrite div_spec. change (Prim2SF nan) with S754_nan.
  destruct (Prim2SF x); reflexivity.
Qed.

(** [abs(x) < tol] needs a positive [tol]. *)
Lemma abs_ltb_nonpositive (x tol : float) :
  (zero <? tol) = false -> (fabs x <? tol) = false.
Proof.
  change ((0 <? tol)%float = false -> (abs x <? tol)%float = false).
  rewrite !ltb_spec, abs_spec. change (Prim2SF 0%float) with (S754_zero false).
  destruct (Prim2SF tol) as [st|st| |st mt et];
    destruct (Prim2SF x) as [sx|sx| |sx mx ex]; try reflexivity;
    try (destruct st; try reflexivity; discriminate).
Qed.

Lemma ltb_nan_l (x : float) : (nan <? x) = false.
Proof. change ((nan <? x)%float = false). rewrite ltb_spec. reflexivity. Qed.

(** A difference with a NaN or an infinity on the right is one too. *)
Lemma sub_nonfinite_r (x q : float) : nonfinite q -> nonfinite (x - q).
Proof.
  rewrite !nonfinite_SF. change (Prim2SF (x - q)) with (Prim2SF (x - q)%float).
  rewrite sub_spec. intros [H|[s H]]; rewrite H.
  - left. destruct (Prim2SF x); reflexivity.
  - destruct (Prim2SF x) as [sx|sx| |sx mx ex]; simpl; eauto.
    destruct sx, s; simpl; eauto.
Qed.

(** A quotient by a zero, of either sign, is a NaN or an infinity. *)
Lemma div_zero_nonfinite (x d : float) :
  (d =? zero) = true -> nonfinite (x / d).
Proof.
  change ((d =? 0)%float = true -> nonfinite (x / d)%float).
  rewrite FloatAxioms.eqb_spec, nonfinite_SF, div_spec.
  change (Prim2SF 0%float) with (S754_zero false).
  destruct (Prim2SF d) as [sd|sd| |sd md ed]; try discriminate.
  - intros _. destruct (Prim2SF x) as [sx|sx| |sx mx ex]; simpl; eauto.
  - destruct sd; discriminate.
  - destruct sd; discriminate.
Qed.

Create Rewrite HintDb b64_nan.
#[global] Hint Rewrite mul_nan_r mul_nan_l add_nan_r add_nan_l
  sub_nan_r sub_nan_l div_nan_l div_nan_r : b64_nan.

End B64Facts.

Section NonFinite.

Local Open Scope arith_scope.
Import B64Facts.

Lemma lst_snoc (l : list float) (a : float) : lst (l ++ [a]) = a.
Proof. unfold lst. apply last_last. Qed.

(** A pass from a NaN [f''] appends a NaN [f'] and a NaN [f'']. *)
Lemma rk4_body_nan (h : float) (f fp fpp : list float) :
  lst fpp = nan ->
  exists f' fp' fpp',
    rk4_body (A:=binary64) h (f, fp, fpp) = (f', fp', fpp') /\
    lst fp' = nan /\ lst fpp' = nan.
Proof.
  intros H. unfold rk4_body, scale, ix0, ix1, ix2. cbn [fst snd].
  rewrite H. do 3 eexists. split; [reflexivity|].
  rewrite !lst_snoc. autorewrite with b64_nan. split; reflexivity.
Qed.

(** The first pass from an infinite trial parameter does the same:
    [-0.5 * 0 * inf] is a NaN. *)
Lemma rk4_body_first_infinite (h x : float) :
  x = infinity \/ x = neg_infinity ->
  exists f' fp' fpp',
    rk4_body (A:=binary64) h ([zero], [zero], [x]) = (f', fp', fpp') /\
    lst fp' = nan /\ lst fpp' = nan.
Proof.
  intros Hx. unfold rk4_body, scale, ix0, ix1, ix2. cbn [fst snd].
  do 3 eexists. split; [reflexivity|].
  rewrite !lst_snoc. change (lst [x]) with x.
  change (lst [zero (F:=float)]) with (zero (F:=float)).
  assert (E : - half * zero * x = nan)
    by (destruct Hx as [-> | ->]; vm_compute; reflexivity).
  rewrite E. autorewrite with b64_nan. split; reflexivity.
Qed.

Lemma rk4_loop_nan (n : nat) (h : float) (f fp fpp : list float) :
  lst fp = nan -> lst fpp = nan ->
  lst (snd (fst (rk4_loop (A:=binary64) n h (f, fp, fpp)))) = nan.
Proof.
  revert f fp fpp. induction n as [|n IH]; intros f fp fpp Hfp Hfpp.
  - exact Hfp.
  - change (rk4_loop (S n) h (f, fp, fpp))
      with (rk4_loop n h (rk4_body h (f, fp, fpp))).
    destruct (rk4_body_nan h f fp fpp Hfpp) as (f' & fp' & fpp' & -> & H1 & H2).
    apply IH; assumption.
Qed.

(** On a grid of two points or more, a trial parameter that is a NaN or an
    infinity has the final [f'] NaN. *)
Lemma final_fp_nonfinite (h x : float) (eta : list float) :
  2 <= length eta -> nonfinite x -> final_fp (A:=binary64) h eta x = nan.
Proof.
  intros L Hx. unfold final_fp, integrate.
  destruct (length eta - 1)%nat as [|n] eqn:E; [lia|].
  change (rk4_loop (S n) h ([zero], [zero], [x]))
    with (rk4_loop n h (rk4_body h ([zero], [zero], [x]))).
  destruct Hx as [->|Hx].
  - destruct (rk4_body_nan h [zero] [zero] [nan] eq_refl)
      as (f' & fp' & fpp' & -> & H1 & H2).
    apply rk4_loop_nan; assumption.
  - destruct (rk4_body_first_infinite h x Hx)
      as (f' & fp' & fpp' & -> & H1 & H2).
    apply rk4_loop_nan; assumption.
Qed.

Variables tol eta_max h : float.
Variable eta : list float.
Hypothesis grid : arange (A:=binary64) zero (eta_max + h) h = Return eta.
Hypothesis two_points : 2 <= length eta.

Lemma nonfinite_not_converged (o f2o x : float) :
  nonfinite x -> converged tol h eta (o, f2o, x) = false.
Proof.
  intros Hx. unfold converged, guess. cbn [snd].
  rewrite (final_fp_nonfinite h x eta two_points Hx).
  rewrite sub_nan_l. change (fabs nan) with nan. apply ltb_nan_l.
Qed.

Lemma nonfinite_shift (o f2o x : float) :
  nonfinite x -> guess (shift h eta (o, f2o, x)) = nan.
Proof.
  intros Hx. unfold shift, guess. cbn [snd].
  rewrite (final_fp_nonfinite h x eta two_points Hx).
  autorewrite with b64_nan. reflexivity.
Qed.

Lemma run_nonfinite (n i : nat) (st : shoot_state) :
  nonfinite (guess st) ->
  run n i tol eta_max h st = Raise (RuntimeError not_converged_msg).
Proof.
  revert i st. induction n as [|n IH]; intros i st Hx.
  - apply run_exhausted.
  - rewrite (run_pass tol eta_max h eta grid).
    destruct st as [[o f2o] x]. unfold guess in Hx. cbn [snd] in Hx.
    rewrite (nonfinite_not_converged o f2o x Hx).
    apply IH. rewrite (nonfinite_shift o f2o x Hx). left. reflexivity.
Qed.

End NonFinite.

(** In binary64, on a grid of two points or more, a seed guess that is a
    NaN or an infinity is never recovered from: unless the second seed is
    within the tolerance at pass 0, the call runs out of passes. *)
Theorem nonfinite_seed_fails (tol eta_max h : float) (eta : list float)
        (f1_0_old f1_0_new : float) :
  arange (A:=binary64) zero (eta_max + h)%A h = Return eta ->
  2 <= length eta ->
  nonfinite f1_0_old \/ nonfinite f1_0_new ->
  converged tol h eta (initial_state h eta (f1_0_old, f1_0_new)) = false ->
  secant_method (f1_0_old, f1_0_new) tol eta_max h
  = Raise (RuntimeError not_converged_msg).
Proof.
  intros G L [Ho|Hx] C; rewrite (secant_method_run tol eta_max h eta G).
  - rewrite (run_pass tol eta_max h eta G), C.
    apply (run_nonfinite tol eta_max h eta G L).
    unfold initial_state, shift, guess. cbn [fst snd].
    rewrite (final_fp_nonfinite h f1_0_old eta L Ho).
    rewrite B64Facts.sub_nan_r, B64Facts.div_nan_r, B64Facts.sub_nan_r.
    left. reflexivity.
  - apply (run_nonfinite tol eta_max h eta G L). exact Hx.
Qed.

Lemma nonfinite_seed_fails_witness :
  secant_method (0.01%float, infinity) default_tol default_eta_max default_h
  = Raise (RuntimeError not_converged_msg).
Proof.
  destruct (arange (A:=binary64) zero (default_eta_max + default_h)%A default_h)
    as [eta|e] eqn:G; [|vm_compute in G; discriminate G].
  assert (G' := G). vm_compute in G'. injection G' as <-.
  apply (nonfinite_seed_fails default_tol default_eta_max default_h _
           0.01%float infinity G).
  - simpl. lia.
  - right. right. left. reflexivity.
  - vm_compute. reflexivity.
Defined.

(** In binary64, on a grid of two points or more, a pass that has not
    converged and whose denominator [f2_new - f2_old] is zero is fatal: the
    division yields a NaN or an infinity, every later final [f'] is a NaN,
    and the call runs out of passes. *)
Theorem degenerate_pass_fails (tol eta_max h : float) (eta : list float)
        (n i : nat) (f1_0_old f2_old f1_0_new : float) :
  arange (A:=binary64) zero (eta_max + h)%A h = Return eta ->
  2 <= length eta ->
  converged tol h eta (f1_0_old, f2_old, f1_0_new) = false ->
  (final_fp h eta f1_0_new - f2_old =? zero)%A = true ->
  secant_loop (S n) i tol eta_max h f1_0_old f2_old f1_0_new
  = Raise (RuntimeError not_converged_msg).
Proof.
  intros G L C Z.
  pose proof (run_pass tol eta_max h eta G n i (f1_0_old, f2_old, f1_0_new))
    as P.
  rewrite C in P. unfold run at 1 in P. rewrite P.
  apply (run_nonfinite tol eta_max h eta G L).
  unfold shift, guess. cbn [snd].
  apply B64Facts.sub_nonfinite_r. apply B64Facts.div_zero_nonfinite. exact Z.
Qed.

Lemma degenerate_pass_fails_witness :
  secant_loop 90 10 0%float default_eta_max default_h
    0.33205920075818429%float 1%float 0.33205920075818429%float
  = Raise (RuntimeError not_converged_msg).
Proof.
  destruct (arange (A:=binary64) zero (default_eta_max + default_h)%A default_h)
    as [eta|e] eqn:G; [|vm_compute in G; discriminate G].
  assert (G' := G). vm_compute in G'. injection G' as <-.
  apply (degenerate_pass_fails 0%float default_eta_max default_h _ 89 10
           0.33205920075818429%float 1%float 0.33205920075818429%float G).
  - simpl. lia.
  - vm_compute. reflexivity.
  - vm_compute. reflexivity.
Defined.

(** In binary64 a tolerance that is not positive (zero, negative or a NaN)
    is never met: every call whose grid is built runs out of passes. *)
Theorem nonpositive_tolerance_fails (tol eta_max h : float)
        (eta : list float) (f1_0_guesses : float * float) :
  (zero <? tol)%A = false ->
  arange (A:=binary64) zero (eta_max + h)%A h = Return eta ->
  secant_method f1_0_guesses tol eta_max h
  = Raise (RuntimeError not_converged_msg).
Proof.
  intros T G. apply (secant_method_exhausts tol eta_max h eta G).
  intros j _. unfold converged. apply B64Facts.abs_ltb_nonpositive. exact T.
Qed.

Lemma nonpositive_tolerance_fails_witness :
  secant_method (0.01, 5.0)%float (-1e-7)%float default_eta_max default_h
  = Raise (RuntimeError not_converged_msg) /\
  secant_method (0.01, 5.0)%float nan default_eta_max default_h
  = Raise (RuntimeError not_converged_msg).
Proof.
  destruct (arange (A:=binary64) zero (default_eta_max + default_h)%A default_h)
    as [eta|e] eqn:G; [|vm_compute in G; discriminate G].
  split.
  - exact (nonpositive_tolerance_fails (-1e-7)%float default_eta_max
             default_h eta (0.01, 5.0)%float eq_refl G).
  - exact (nonpositive_tolerance_fails nan default_eta_max default_h eta
             (0.01, 5.0)%float eq_refl G).
Defined.
